(** * StellarCalculator: a shallow embedding of [StarCalculator]

    The Python class [StarCalculator] estimates mass, temperature, lifespan
    and spectral type of a main-sequence star from one known property.

    Numbers.  Python floats are idealised as real numbers ([R]); rounding,
    overflow, infinities and NaN are outside the model.  The power operator
    [**] with a fractional exponent returns a Python [complex] when its base
    is negative; the model keeps that as the tag [Cx], because comparisons
    on a complex value raise [TypeError] and this is how the program reacts
    to negative seeds.

    Strings.  Python [str] is modelled by [string] (one byte per character).

    Ranges.  The model has the formulas of the program, not the range of
    doubles: in Python a power that is too large raises [OverflowError],
    one that is too small is 0.0, and a subclass of several hundred digits
    does not convert to a float.  Statements that speak of every seed of a
    path are therefore made for masses between 10^-100 and 10^100, for
    temperatures between 10^-40 and 10^40 and for spectral types of at most
    100 ASCII characters ([mass_in_range], [temperature_in_range],
    [plain_text]), where the powers of the program are far from both ends
    of the range and [isdigit], [int], [strip] and [upper] are those of
    Python.

    Effects.  Methods mutate [self] and may read a line from standard input;
    exceptions leave the mutated object behind.  Methods are therefore
    functions [world -> (exn + A) * world]. *)

From Stdlib Require Import Reals Lra Lia ZArith Bool List.
From Stdlib Require Import Ascii String.
From Stdlib Require Import Decimal DecimalString DecimalNat DecimalFacts.
Import ListNotations.

Local Open Scope R_scope.
Local Open Scope string_scope.

(** ** Python values *)

Module Py.

(** A numeric value held by an attribute: a float, or a (non-zero) complex
    number, of which only the type matters. *)
Inductive num : Type :=
| Fl (r : R)
| Cx.

(** The exceptions the program can raise.  [ValueError] carries its
    message, which is what tells the [raise] sites of the class apart. *)
Inductive exn : Type :=
| ValueError (msg : string)
| TypeError
| ZeroDivisionError
| IndexError
| EOFError.

Definition Rltb (x y : R) : bool := if Rlt_dec x y then true else false.
Definition Rleb (x y : R) : bool := if Rle_dec x y then true else false.
Definition Reqb (x y : R) : bool := if Req_dec_T x y then true else false.

(** [bool(x)] for a number: zero is falsy, a non-zero complex is truthy. *)
Definition truthy_num (x : num) : bool :=
  match x with
  | Fl r => negb (Reqb r 0)
  | Cx => true
  end.

(** [bool(x)] for an attribute that is [None] or a number. *)
Definition truthy (x : option num) : bool :=
  match x with
  | None => false
  | Some v => truthy_num v
  end.

(** [bool(s)] for an attribute that is [None] or a string. *)
Definition truthy_str (x : option string) : bool :=
  match x with
  | None => false
  | Some s => negb (String.eqb s "")
  end.

(** [x ** y] for floats [x], [y] where [y] is not an integer (every exponent
    of the program is one of 0.505, 1/0.505, -2.5, -1.8). *)
Definition float_pow (x y : R) : exn + num :=
  if Rltb 0 x then inr (Fl (Rpower x y))
  else if Reqb x 0 then
    (if Rltb 0 y then inr (Fl 0) else inl ZeroDivisionError)
  else inr Cx.

(** [b ** y] for an attribute value [b]. *)
Definition num_pow (b : num) (y : R) : exn + num :=
  match b with
  | Fl x => float_pow x y
  | Cx => inr Cx
  end.

(** [k * v] for a non-zero float constant [k]. *)
Definition num_scale (k : R) (v : num) : num :=
  match v with
  | Fl r => Fl (k * r)
  | Cx => Cx
  end.

(** [v / k] for a non-zero float constant [k]. *)
Definition num_div (v : num) (k : R) : num :=
  match v with
  | Fl r => Fl (r / k)
  | Cx => Cx
  end.

(** [v >= c] and [v < c]: ordering a complex number raises [TypeError]. *)
Definition num_ge (v : num) (c : R) : exn + bool :=
  match v with
  | Fl r => inr (Rleb c r)
  | Cx => inl TypeError
  end.

Definition num_lt (v : num) (c : R) : exn + bool :=
  match v with
  | Fl r => inr (Rltb r c)
  | Cx => inl TypeError
  end.

(** [int(x // d)] on floats: the floor of the quotient. *)
Definition floordiv (x d : R) : Z := Int_part (x / d).

(** [str(n)] for an [int], as an f-string renders it. *)
Definition str_int (n : Z) : string := NilZero.string_of_int (Z.to_int n).

(** [c.isdigit()] for one character, and [s.isdigit()]: a non-empty string
    of decimal digits.  (Python also counts digits outside ASCII, on which
    [int] may raise; the one-byte characters of the model have none.) *)
Definition is_digit (c : ascii) : bool :=
  (48 <=? nat_of_ascii c)%nat && (nat_of_ascii c <=? 57)%nat.

Fixpoint all_digits (s : string) : bool :=
  match s with
  | EmptyString => true
  | String c r => is_digit c && all_digits r
  end.

Definition isdigit (s : string) : bool :=
  match s with
  | EmptyString => false
  | String _ _ => all_digits s
  end.

(** [int(s)] for a string of decimal digits. *)
Fixpoint int_acc (acc : Z) (s : string) : Z :=
  match s with
  | EmptyString => acc
  | String c r => int_acc (10 * acc + (Z.of_nat (nat_of_ascii c) - 48)) r
  end.

Definition int (s : string) : Z := int_acc 0 s.

End Py.

Import Py.

(** ** The object and the world *)

(** The attributes of a [StarCalculator].  [None] is Python's [None]. *)
Record StarCalculator : Type := mkStar {
  mass : option num;
  temperature : option num;
  lifespan : option num;
  spectral_type : option string;
  metallicity : option R
}.

(** What the user types at a prompt: nothing, a text that [float] accepts
    (with its value), or a text that [float] rejects. *)
Inductive line : Type :=
| Blank
| Number (r : R)
| Junk.

Record world : Type := mkWorld {
  self : StarCalculator;
  stdin : list line
}.

(** ** A state-and-exception monad for methods *)

Definition Method (A : Type) : Type := world -> (exn + A) * world.

Definition ret {A} (a : A) : Method A := fun w => (inr a, w).

Definition raise {A} (e : exn) : Method A := fun w => (inl e, w).

Definition bind {A B} (m : Method A) (k : A -> Method B) : Method B :=
  fun w =>
    match m w with
    | (inl e, w') => (inl e, w')
    | (inr a, w') => k a w'
    end.

Definition lift {A} (x : exn + A) : Method A :=
  match x with
  | inl e => raise e
  | inr a => ret a
  end.

Notation "x <- m ;; k" := (bind m (fun x => k))
  (at level 61, m at next level, right associativity).
Notation "m ;; k" := (bind m (fun _ => k))
  (at level 61, right associativity).

Definition get {A} (f : StarCalculator -> A) : Method A :=
  fun w => (inr (f (self w)), w).

Definition update (f : StarCalculator -> StarCalculator) : Method unit :=
  fun w => (inr tt, mkWorld (f (self w)) (stdin w)).

(** Reading an attribute as a number; arithmetic on [None] is a
    [TypeError]. *)
Definition get_num (f : StarCalculator -> option num) : Method num :=
  v <- get f ;;
  match v with
  | Some x => ret x
  | None => raise TypeError
  end.

Definition set_mass (v : num) : Method unit :=
  update (fun s => mkStar (Some v) (temperature s) (lifespan s)
                          (spectral_type s) (metallicity s)).

Definition set_temperature (v : num) : Method unit :=
  update (fun s => mkStar (mass s) (Some v) (lifespan s)
                          (spectral_type s) (metallicity s)).

Definition set_lifespan (v : num) : Method unit :=
  update (fun s => mkStar (mass s) (temperature s) (Some v)
                          (spectral_type s) (metallicity s)).

Definition set_spectral_type (v : string) : Method unit :=
  update (fun s => mkStar (mass s) (temperature s) (lifespan s)
                          (Some v) (metallicity s)).

Definition set_metallicity (v : R) : Method unit :=
  update (fun s => mkStar (mass s) (temperature s) (lifespan s)
                          (spectral_type s) (Some v)).

(** The [ValueError] of [float] on a text that is not a number. *)
Definition could_not_convert : exn :=
  ValueError "could not convert string to float".

(** [float(input(prompt) or 1.0)]. *)
Definition input_float_or_one : Method R :=
  fun w =>
    match stdin w with
    | [] => (inl EOFError, w)
    | l :: rest =>
        let w' := mkWorld (self w) rest in
        match l with
        | Blank => (inr 1, w')
        | Number r => (inr r, w')
        | Junk => (inl could_not_convert, w')
        end
    end.

(** ** The class *)

(** The four [ValueError]s of the class, named as the specification names
    them. *)
Definition MissingSeedError : exn :=
  ValueError "At least one property (mass, temperature, or spectral type) must be provided.".
Definition InvalidMassError : exn :=
  ValueError "Mass must be provided to calculate other properties.".
Definition InvalidTemperatureError : exn :=
  ValueError "Temperature must be provided to calculate other properties.".
Definition MissingSpectralTypeError : exn :=
  ValueError "Spectral type must be provided to calculate other properties.".
Definition UnknownSpectralTypeError : exn :=
  ValueError "Unknown spectral type.".

(** [__init__]: metallicity defaults to 1.0 when it is not given. *)
Definition init (mass temperature lifespan : option num)
    (spectral_type : option string) (metallicity : option R) : StarCalculator :=
  mkStar mass temperature lifespan spectral_type
    (Some match metallicity with Some z => z | None => 1 end).

(** [determine_spectral_type_with_subclass]: does not touch [self]. *)
Definition determine_spectral_type_with_subclass (temperature : num)
  : exn + string :=
  match temperature with
  | Cx => inl TypeError
  | Fl t =>
    if Rleb 60000 t then
      inr ("Wolf Rayet Star" ++ str_int 0)
    else if Rleb 30000 t && Rltb t 60000 then
      inr ("O" ++ str_int (Z.min 9 (floordiv (60000 - t) 3000)))
    else if Rleb 10000 t && Rltb t 30000 then
      inr ("B" ++ str_int (Z.min 9 (floordiv (30000 - t) 2000)))
    else if Rleb 7500 t && Rltb t 10000 then
      inr ("A" ++ str_int (Z.min 9 (floordiv (10000 - t) 250)))
    else if Rleb 6000 t && Rltb t 7500 then
      inr ("F" ++ str_int (Z.min 9 (floordiv (7500 - t) 150)))
    else if Rleb 5200 t && Rltb t 6000 then
      inr ("G" ++ str_int (Z.min 9 (floordiv (6000 - t) 80)))
    else if Rleb 3700 t && Rltb t 5200 then
      inr ("K" ++ str_int (Z.min 9 (floordiv (5200 - t) 150)))
    else if Rleb 2400 t && Rltb t 3700 then
      inr ("M" ++ str_int (Z.min 9 (floordiv (3700 - t) 130)))
    else if Rleb 1300 t && Rltb t 2400 then
      inr ("L" ++ str_int (Z.min 9 (floordiv (2400 - t) 100)))
    else if Rleb 600 t && Rltb t 1300 then
      inr ("T" ++ str_int (Z.min 9 (floordiv (1300 - t) 70)))
    else
      inr ("Below T type (Y dwarf or planet)" ++ "")
  end.

(** [calculate_from_mass]. *)
Definition calculate_from_mass : Method unit :=
  m <- get mass ;;
  if negb (truthy m) then raise InvalidMassError else
  m <- get_num mass ;;
  p <- lift (num_pow m 0.505) ;;
  set_temperature (num_scale 5800 p) ;;
  m <- get_num mass ;;
  heavy <- lift (num_ge m 0.43) ;;
  (if heavy : bool then
     m <- get_num mass ;;
     p <- lift (num_pow m (-2.5)) ;;
     set_lifespan (num_scale 10 p)
   else
     m <- get_num mass ;;
     p <- lift (num_pow m (-1.8)) ;;
     set_lifespan (num_scale 15 p)) ;;
  t <- get_num temperature ;;
  s <- lift (determine_spectral_type_with_subclass t) ;;
  set_spectral_type s ;;
  z <- get metallicity ;;
  match z with
  | None => v <- input_float_or_one ;; set_metallicity v
  | Some _ => ret tt
  end.

(** [calculate_from_temperature]. *)
Definition calculate_from_temperature : Method unit :=
  t <- get temperature ;;
  if negb (truthy t) then raise InvalidTemperatureError else
  t <- get_num temperature ;;
  m <- lift (num_pow (num_div t 5800) (1 / 0.505)) ;;
  set_mass m ;;
  calculate_from_mass.

(** The dictionary of [calculate_from_spectral_type], in source order. *)
Definition spectral_type_dict : list (ascii * (R * R)) :=
  [ ("O"%char, (20, 50000));
    ("B"%char, (2.5, 25000));
    ("A"%char, (2.0, 10000));
    ("F"%char, (1.4, 7500));
    ("G"%char, (1.1, 5800));
    ("K"%char, (0.8, 4500));
    ("M"%char, (0.5, 3500));
    ("L"%char, (0.08, 2200));
    ("T"%char, (0.05, 1200)) ].

Fixpoint dict_get {V} (d : list (ascii * V)) (k : ascii) : option V :=
  match d with
  | [] => None
  | (k', v) :: d' => if Ascii.eqb k' k then Some v else dict_get d' k
  end.

(** The subclass expression of line 70:
    [int(s[1:]) if len(s) > 1 and s[1:].isdigit() else 0]. *)
Definition subclass_of (s : string) : Z :=
  match s with
  | EmptyString => 0
  | String _ rest =>
      if (1 <? String.length s)%nat && isdigit rest then int rest else 0
  end.

Definition adjustment_factor (subclass : Z) : R :=
  1 + 0.01 * (5 - IZR subclass).

(** Lines 68-73: the seed step, which sets mass and temperature from the
    table entry and the subclass, or raises on an unknown letter. *)
Definition seed_from_table (s : string) : Method unit :=
  match s with
  | EmptyString => raise IndexError
  | String c _ =>
      match dict_get spectral_type_dict c with
      | Some (base_mass, base_temp) =>
          let subclass := subclass_of s in
          let af := adjustment_factor subclass in
          set_mass (Fl (base_mass * af)) ;;
          set_temperature (Fl (base_temp * af))
      | None => raise UnknownSpectralTypeError
      end
  end.

(** Lines 75-79: the lifespan step that follows the seed step. *)
Definition lifespan_after_seed : Method unit :=
  m <- get_num mass ;;
  light <- lift (num_lt m 0.43) ;;
  if light : bool then
    m <- get_num mass ;;
    p <- lift (num_pow m (-1.8)) ;;
    set_lifespan (num_scale 15 p)
  else
    calculate_from_mass.

(** [calculate_from_spectral_type]. *)
Definition calculate_from_spectral_type : Method unit :=
  st <- get spectral_type ;;
  if negb (truthy_str st) then raise MissingSpectralTypeError else
  match st with
  | None => raise MissingSpectralTypeError
  | Some s => seed_from_table s ;; lifespan_after_seed
  end.

(** [calculate_properties]: the dispatcher. *)
Definition calculate_properties : Method unit :=
  m <- get mass ;;
  if truthy m then calculate_from_mass else
  t <- get temperature ;;
  if truthy t then calculate_from_temperature else
  st <- get spectral_type ;;
  if truthy_str st then calculate_from_spectral_type else
  raise MissingSeedError.

(** Lines 138-143: the object the script builds from what the user typed,
    where a mass or temperature that is not positive is passed as [None]. *)
Definition example_usage (mass_input temperature_input : R)
    (spectral_type_input : option string) (metallicity_input : option R)
  : StarCalculator :=
  init (if Rltb 0 mass_input then Some (Fl mass_input) else None)
       (if Rltb 0 temperature_input then Some (Fl temperature_input) else None)
       None spectral_type_input metallicity_input.

(** ** The specification's band table *)

(** Section 4.5 of the specification: the lettered bands as rows
    (letter, lower bound, upper bound, divisor); a temperature [T] in
    [lower, upper) gets the digit [(upper - T) // divisor], capped at 9. *)
Definition band_table : list (string * R * R * R) :=
  [ ("O", 30000, 60000, 3000);
    ("B", 10000, 30000, 2000);
    ("A", 7500, 10000, 250);
    ("F", 6000, 7500, 150);
    ("G", 5200, 6000, 80);
    ("K", 3700, 5200, 150);
    ("M", 2400, 3700, 130);
    ("L", 1300, 2400, 100);
    ("T", 600, 1300, 70) ].

Definition band_digit (upper divisor T : R) : Z :=
  Z.min 9 (floordiv (upper - T) divisor).

(** The label the classifier gives to a real temperature. *)
Definition classify (t : R) : string :=
  match determine_spectral_type_with_subclass (Fl t) with
  | inr s => s
  | inl _ => ""
  end.

(** The lifespan formula of section 4.4, for a positive mass. *)
Definition lifespan_formula (m : R) : R :=
  if Rleb 0.43 m then 10 * Rpower m (-2.5) else 15 * Rpower m (-1.8).

(** The object after the mass-based derivation from a positive mass [m],
    with [z] for its metallicity. *)
Definition after_mass (m : R) (z : option R) : StarCalculator :=
  mkStar (Some (Fl m)) (Some (Fl (5800 * Rpower m 0.505)))
         (Some (Fl (lifespan_formula m)))
         (Some (classify (5800 * Rpower m 0.505))) z.

(** What the last statement of [calculate_from_mass] does to a metallicity
    [z] and the pending input: the outcome, the metallicity left in the
    object and the input left unread. *)
Definition prompt_outcome (z : option R) (inp : list line)
  : (exn + unit) * option R * list line :=
  match z with
  | Some v => (inr tt, Some v, inp)
  | None =>
      match inp with
      | [] => (inl EOFError, None, [])
      | Blank :: rest => (inr tt, Some 1, rest)
      | Number r :: rest => (inr tt, Some r, rest)
      | Junk :: rest => (inl could_not_convert, None, rest)
      end
  end.

(** The mass estimate of section 4.3. *)
Definition estimated_mass (t : R) : R := Rpower (t / 5800) (1 / 0.505).

(** The decimal numeral of a natural number, as a string. *)
Definition decimal (n : nat) : string :=
  NilEmpty.string_of_uint (Nat.to_uint n).

(** The object after the seed step wrote mass [m] and temperature [t]. *)
Definition seeded (s : StarCalculator) (m t : R) : StarCalculator :=
  mkStar (Some (Fl m)) (Some (Fl t)) (lifespan s) (spectral_type s)
         (metallicity s).

(** Two outcomes of a method agree when they return or raise alike and,
    on a normal return, leave the same world. *)
Definition same_outcome (a b : (exn + unit) * world) : Prop :=
  fst a = fst b /\ (fst a = inr tt -> snd a = snd b).

(** An attribute holds a positive float. *)
Definition positive (x : option num) : Prop :=
  match x with
  | Some (Fl r) => 0 < r
  | _ => False
  end.

(** The invariant of section 3 on a resolved record. *)
Definition resolved_positive (s : StarCalculator) : Prop :=
  positive (mass s) /\ positive (temperature s) /\ positive (lifespan s)
  /\ match metallicity s with Some z => 0 < z | None => False end.

(** A spectral type lands in the band of letter [b] when it starts with
    that letter. *)
Definition lands_in_band (b : ascii) (x : option string) : Prop :=
  exists rest, x = Some (String b rest).

(** ** Display and the script *)

(** A value of the dictionary that [display_properties] returns. *)
Inductive value : Type :=
| VNum (r : R)
| VStr (s : string)
| VNone.

(** The integer nearest to [y], the even one of the two when [y] lies
    halfway between them. *)
Definition round_half_even (y : R) : Z :=
  let f := Int_part y in
  if Rltb (y - IZR f) (1 / 2) then f
  else if Rltb (1 / 2) (y - IZR f) then (f + 1)%Z
  else if Z.even f then f else (f + 1)%Z.

(** [round(x, ndigits)] on a float, over the reals: the nearest multiple of
    10^-ndigits, ties going to the even one. *)
Definition py_round (x : R) (ndigits : nat) : R :=
  IZR (round_half_even (x * 10 ^ ndigits)) / 10 ^ ndigits.

(** [round(v, ndigits)] on an attribute: [None] and complex numbers have no
    two-argument [round], which is a [TypeError]. *)
Definition round_attr (v : option num) (ndigits : nat) : exn + R :=
  match v with
  | Some (Fl r) => inr (py_round r ndigits)
  | Some Cx => inl TypeError
  | None => inl TypeError
  end.

Definition round_float (v : option R) (ndigits : nat) : exn + R :=
  match v with
  | Some r => inr (py_round r ndigits)
  | None => inl TypeError
  end.

(** [display_properties]: the dictionary, as the list of its items in
    insertion order. *)
Definition display_properties : Method (list (string * value)) :=
  m <- get mass ;;
  rm <- lift (round_attr m 3) ;;
  t <- get temperature ;;
  rt <- lift (round_attr t 2) ;;
  l <- get lifespan ;;
  rl <- lift (round_attr l 3) ;;
  st <- get spectral_type ;;
  z <- get metallicity ;;
  rz <- lift (round_float z 2) ;;
  ret [ ("Mass (in Solar masses)", VNum rm);
        ("Temperature (K)", VNum rt);
        ("Lifespan (billion years)", VNum rl);
        ("Spectral Type", match st with Some s => VStr s | None => VNone end);
        ("Metallicity (Solar units)", VNum rz) ].

(** [c.isspace()] on a one-byte character: tab to carriage return, the
    four separators 28-31 and the space. *)
Definition isspace (c : ascii) : bool :=
  let n := nat_of_ascii c in
  ((9 <=? n) && (n <=? 13) || (28 <=? n) && (n <=? 32))%nat.

Fixpoint lstrip (s : string) : string :=
  match s with
  | EmptyString => EmptyString
  | String c r => if isspace c then lstrip r else s
  end.

Fixpoint rstrip (s : string) : string :=
  match s with
  | EmptyString => EmptyString
  | String c r =>
      match rstrip r with
      | EmptyString => if isspace c then EmptyString else String c EmptyString
      | r' => String c r'
      end
  end.

(** [s.strip()]. *)
Definition strip (s : string) : string := rstrip (lstrip s).

(** [c.upper()] on a one-byte character: the letters a-z move to A-Z. *)
Definition upper_char (c : ascii) : ascii :=
  let n := nat_of_ascii c in
  if ((97 <=? n) && (n <=? 122))%nat then ascii_of_nat (n - 32) else c.

(** [s.upper()]. *)
Fixpoint upper (s : string) : string :=
  match s with
  | EmptyString => EmptyString
  | String c r => String (upper_char c) (upper r)
  end.

(** What the user types at the four prompts of the script (the input is
    taken to hold all four answers; an end of input in their middle is
    outside the model).  The two numbers and the metallicity are kept as
    [line]s: for the first two [Blank] is the empty text, for the
    metallicity it is a text that is empty once stripped. *)
Record answers : Type := mkAnswers {
  mass_text : line;
  temperature_text : line;
  spectral_type_text : string;
  metallicity_text : line
}.

(** [float(input(prompt) or 0)], lines 132 and 133. *)
Definition float_or_zero (l : line) : exn + R :=
  match l with
  | Blank => inr 0
  | Number r => inr r
  | Junk => inl could_not_convert
  end.

(** [input(prompt).strip().upper() or None], line 134. *)
Definition spectral_type_or_none (text : string) : option string :=
  match upper (strip text) with
  | EmptyString => None
  | s => Some s
  end.

(** Lines 135-136: [float(text) if text else None] on the stripped text. *)
Definition float_or_none (l : line) : exn + option R :=
  match l with
  | Blank => inr None
  | Number r => inr (Some r)
  | Junk => inl could_not_convert
  end.

(** The script, lines 132-146: it builds the object [calc] (which replaces
    the placeholder [self] of the starting world), resolves it, and prints
    the dictionary that it returns here. *)
Definition main (a : answers) : Method (list (string * value)) :=
  mass_input <- lift (float_or_zero (mass_text a)) ;;
  temperature_input <- lift (float_or_zero (temperature_text a)) ;;
  let spectral_type_input := spectral_type_or_none (spectral_type_text a) in
  metallicity_input <- lift (float_or_none (metallicity_text a)) ;;
  update (fun _ => example_usage mass_input temperature_input
                     spectral_type_input metallicity_input) ;;
  calculate_properties ;;
  display_properties.

(** A string of whitespace only (possibly empty). *)
Fixpoint blank (s : string) : bool :=
  match s with
  | EmptyString => true
  | String c r => isspace c && blank r
  end.

(** The answers [a] with another text typed for the spectral type. *)
Definition with_spectral_type_text (a : answers) (text : string) : answers :=
  mkAnswers (mass_text a) (temperature_text a) text (metallicity_text a).


(** ** Seeds within the range of doubles *)

(** Masses for which 5800 * m^0.505, 10 * m^-2.5 and 15 * m^-1.8 are far
    inside the range of doubles (they lie between 10^-249 and 10^182). *)
Definition mass_in_range (m : R) : Prop := / 10 ^ 100 <= m <= 10 ^ 100.

(** Temperatures whose mass estimate (t / 5800)^(1/0.505) is such a
    mass. *)
Definition temperature_in_range (t : R) : Prop := / 10 ^ 40 <= t <= 10 ^ 40.

(** A string of ASCII characters only. *)
Fixpoint ascii_only (s : string) : bool :=
  match s with
  | EmptyString => true
  | String c r => (nat_of_ascii c <? 128)%nat && ascii_only r
  end.

(** A text of at most 100 ASCII characters: on it [isdigit], [int],
    [strip] and [upper] are those of Python, and a subclass read from it
    converts to a float. *)
Definition plain_text (s : string) : Prop :=
  ascii_only s = true /\ (String.length s <= 100)%nat.

(** A temperature attribute that is absent, zero, or a float whose size
    is in range. *)
Definition temperature_attribute_in_range (x : option num) : Prop :=
  match x with
  | None => True
  | Some (Fl t) => t = 0 \/ temperature_in_range (Rabs t)
  | Some Cx => False
  end.

(** Answers to the script whose positive numbers are in range and whose
    spectral type is a plain text. *)
Definition answers_in_range (a : answers) : Prop :=
  (forall m, mass_text a = Number m -> 0 < m -> mass_in_range m)
  /\ (forall t, temperature_text a = Number t -> 0 < t ->
       temperature_in_range t)
  /\ plain_text (spectral_type_text a).

(** ** Deciding comparisons of reals *)

Section Comparisons.

Variables x y : R.

Lemma Rltb_true : x < y -> Rltb x y = true.
Proof. intros H. unfold Rltb. destruct (Rlt_dec x y); [reflexivity | contradiction]. Qed.

Lemma Rltb_false : ~ x < y -> Rltb x y = false.
Proof. intros H. unfold Rltb. destruct (Rlt_dec x y); [contradiction | reflexivity]. Qed.

Lemma Rleb_true : x <= y -> Rleb x y = true.
Proof. intros H. unfold Rleb. destruct (Rle_dec x y); [reflexivity | contradiction]. Qed.

Lemma Rleb_false : ~ x <= y -> Rleb x y = false.
Proof. intros H. unfold Rleb. destruct (Rle_dec x y); [contradiction | reflexivity]. Qed.

Lemma Reqb_true : x = y -> Reqb x y = true.
Proof. intros H. unfold Reqb. destruct (Req_dec_T x y); [reflexivity | contradiction]. Qed.

Lemma Reqb_false : x <> y -> Reqb x y = false.
Proof. intros H. unfold Reqb. destruct (Req_dec_T x y); [contradiction | reflexivity]. Qed.

End Comparisons.

(** Settles every comparison of the goal that linear arithmetic decides. *)
Ltac rdec_once :=
  repeat match goal with
  | |- context [Rltb ?a ?b] =>
      first [ rewrite (Rltb_true a b) by lra | rewrite (Rltb_false a b) by lra ]
  | |- context [Rleb ?a ?b] =>
      first [ rewrite (Rleb_true a b) by lra | rewrite (Rleb_false a b) by lra ]
  | |- context [Reqb ?a ?b] =>
      first [ rewrite (Reqb_true a b) by lra | rewrite (Reqb_false a b) by lra ]
  end;
  cbv beta iota delta [andb orb negb].

Ltac rdec := repeat (progress rdec_once).

(** ** Seeds in range *)

Lemma mass_in_range_pos (m : R) : mass_in_range m -> 0 < m.
Proof.
  intros [H _].
  assert (0 < / 10 ^ 100) by (apply Rinv_0_lt_compat, pow_lt; lra).
  lra.
Qed.

Lemma temperature_in_range_pos (t : R) : temperature_in_range t -> 0 < t.
Proof.
  intros [H _].
  assert (0 < / 10 ^ 40) by (apply Rinv_0_lt_compat, pow_lt; lra).
  lra.
Qed.

(** ** Floor division *)

Lemma floordiv_unique (x d : R) (z : Z) :
  0 < d -> IZR z * d <= x < (IZR z + 1) * d -> floordiv x d = z.
Proof.
  intros Hd [Hlo Hhi]. unfold floordiv. symmetry. apply Int_part_spec.
  assert (Hq : x = x / d * d) by (field; lra).
  split.
  - apply Rmult_lt_reg_r with d; [exact Hd|]. nra.
  - apply Rmult_le_reg_r with d; [exact Hd|]. nra.
Qed.

Lemma floordiv_nonneg (x d : R) : 0 <= x -> 0 < d -> (0 <= floordiv x d)%Z.
Proof.
  intros Hx Hd. unfold floordiv.
  assert (Hq : 0 <= x / d).
  { apply Rmult_le_reg_r with d; [exact Hd|].
    replace (x / d * d) with x by (field; lra). lra. }
  destruct (base_Int_part (x / d)) as [_ Hgt].
  assert (Hlt : IZR (-1) < IZR (Int_part (x / d))) by (simpl; lra).
  apply lt_IZR in Hlt. lia.
Qed.

Lemma band_digit_range (upper divisor T : R) :
  T <= upper -> 0 < divisor -> (0 <= band_digit upper divisor T <= 9)%Z.
Proof.
  intros HT Hd. unfold band_digit.
  pose proof (floordiv_nonneg (upper - T) divisor ltac:(lra) Hd). lia.
Qed.

(** ** The spectral classifier *)

Lemma classifier_total (t : R) :
  exists s, determine_spectral_type_with_subclass (Fl t) = inr s.
Proof.
  unfold determine_spectral_type_with_subclass.
  repeat match goal with
  | |- context [if ?b then _ else _] => destruct b
  end; eexists; reflexivity.
Qed.

Lemma classifier_classify (t : R) :
  determine_spectral_type_with_subclass (Fl t) = inr (classify t).
Proof.
  unfold classify. destruct (classifier_total t) as [s ->]. reflexivity.
Qed.

Lemma classifier_band (l : string) (lo hi d T : R) :
  In (l, lo, hi, d) band_table -> lo <= T < hi ->
  determine_spectral_type_with_subclass (Fl T)
  = inr (l ++ str_int (band_digit hi d T)).
Proof.
  intros Hin HT. unfold band_table in Hin. simpl in Hin.
  unfold determine_spectral_type_with_subclass, band_digit.
  repeat (destruct Hin as [Hin | Hin];
          [ injection Hin as <- <- <- <-; rdec; reflexivity | ]).
  contradiction.
Qed.

Lemma band_cover (T : R) :
  60000 <= T
  \/ (exists l lo hi d, In (l, lo, hi, d) band_table /\ lo <= T < hi)
  \/ T < 600.
Proof.
  destruct (Rle_dec 60000 T) as [H | H]; [left; exact H | right].
  destruct (Rlt_dec T 600) as [H0 | H0]; [right; exact H0 | left].
  unfold band_table. cbn [In].
  destruct (Rle_dec 30000 T); [exists "O", 30000, 60000, 3000; split; [tauto | lra] |].
  destruct (Rle_dec 10000 T); [exists "B", 10000, 30000, 2000; split; [tauto | lra] |].
  destruct (Rle_dec 7500 T); [exists "A", 7500, 10000, 250; split; [tauto | lra] |].
  destruct (Rle_dec 6000 T); [exists "F", 6000, 7500, 150; split; [tauto | lra] |].
  destruct (Rle_dec 5200 T); [exists "G", 5200, 6000, 80; split; [tauto | lra] |].
  destruct (Rle_dec 3700 T); [exists "K", 3700, 5200, 150; split; [tauto | lra] |].
  destruct (Rle_dec 2400 T); [exists "M", 2400, 3700, 130; split; [tauto | lra] |].
  destruct (Rle_dec 1300 T); [exists "L", 1300, 2400, 100; split; [tauto | lra] |].
  exists "T", 600, 1300, 70; split; [tauto | lra].
Qed.

(** C4. The classifier follows the band table of the specification: the
    Wolf-Rayet label with digit 0 from 60000 K, each lettered band on its
    half-open range with the digit (upper - T) // divisor capped at 9 (a
    digit between 0 and 9), and the sentinel label without a digit below
    600 K; these cases cover every temperature. *)
Theorem classifier_follows_band_table (T : R) :
  (60000 <= T ->
   determine_spectral_type_with_subclass (Fl T) = inr "Wolf Rayet Star0")
  /\ (forall l lo hi d, In (l, lo, hi, d) band_table -> lo <= T < hi ->
      determine_spectral_type_with_subclass (Fl T)
      = inr (l ++ str_int (Z.min 9 (floordiv (hi - T) d)))
      /\ (0 <= Z.min 9 (floordiv (hi - T) d) <= 9)%Z)
  /\ (T < 600 ->
      determine_spectral_type_with_subclass (Fl T)
      = inr "Below T type (Y dwarf or planet)")
  /\ (60000 <= T
      \/ (exists l lo hi d, In (l, lo, hi, d) band_table /\ lo <= T < hi)
      \/ T < 600).
Proof.
  split; [| split; [| split]].
  - intros H. unfold determine_spectral_type_with_subclass. rdec. reflexivity.
  - intros l lo hi d Hin HT. split.
    + exact (classifier_band l lo hi d T Hin HT).
    + apply (band_digit_range hi d T); [lra|].
      unfold band_table in Hin. simpl in Hin.
      repeat (destruct Hin as [Hin | Hin];
              [ injection Hin as <- <- <- <-; lra | ]).
      contradiction.
  - intros H. unfold determine_spectral_type_with_subclass. rdec. reflexivity.
  - apply band_cover.
Qed.

Lemma classifier_follows_band_table_witness :
  determine_spectral_type_with_subclass (Fl 5800) = inr "G2".
Proof.
  destruct (classifier_follows_band_table 5800) as (_ & Hband & _).
  destruct (Hband "G" 5200 6000 80) as [H _]; [simpl; tauto | lra |].
  rewrite H.
  rewrite (floordiv_unique (6000 - 5800) 80 2); [reflexivity | lra | simpl; lra].
Defined.

(** ** Running the methods *)

(** Unfolds the monad and the operations on values down to the
    comparisons.  The methods are unfolded by hand, one at a time, so that
    the lemmas on the methods they call apply. *)
Ltac monad :=
  cbv beta iota zeta delta
    [input_float_or_one init
     bind ret raise lift get update get_num
     set_mass set_temperature set_lifespan set_spectral_type set_metallicity
     self stdin mass temperature lifespan spectral_type metallicity
     truthy truthy_num num_pow float_pow num_scale num_div num_ge num_lt negb].

Ltac run := unfold calculate_from_mass; monad.

(** ** The dispatcher *)

Section Dispatch.

Variables (s : StarCalculator) (inp : list line).

Lemma dispatch_mass :
  truthy (mass s) = true ->
  calculate_properties (mkWorld s inp) = calculate_from_mass (mkWorld s inp).
Proof.
  intros H. cbv beta iota delta [calculate_properties bind get self].
  rewrite H. reflexivity.
Qed.

Lemma dispatch_temperature :
  truthy (mass s) = false -> truthy (temperature s) = true ->
  calculate_properties (mkWorld s inp)
  = calculate_from_temperature (mkWorld s inp).
Proof.
  intros Hm Ht. cbv beta iota delta [calculate_properties bind get self].
  rewrite Hm, Ht. reflexivity.
Qed.

Lemma dispatch_spectral_type :
  truthy (mass s) = false -> truthy (temperature s) = false ->
  truthy_str (spectral_type s) = true ->
  calculate_properties (mkWorld s inp)
  = calculate_from_spectral_type (mkWorld s inp).
Proof.
  intros Hm Ht Hs. cbv beta iota delta [calculate_properties bind get self].
  rewrite Hm, Ht, Hs. reflexivity.
Qed.

Lemma dispatch_missing :
  truthy (mass s) = false -> truthy (temperature s) = false ->
  truthy_str (spectral_type s) = false ->
  calculate_properties (mkWorld s inp) = (inl MissingSeedError, mkWorld s inp).
Proof.
  intros Hm Ht Hs. cbv beta iota delta [calculate_properties bind get self].
  rewrite Hm, Ht, Hs. reflexivity.
Qed.

Lemma spectral_run_falsy :
  truthy_str (spectral_type s) = false ->
  calculate_from_spectral_type (mkWorld s inp)
  = (inl MissingSpectralTypeError, mkWorld s inp).
Proof.
  intros H. cbv beta iota delta [calculate_from_spectral_type bind get self].
  rewrite H. reflexivity.
Qed.

Lemma spectral_run_unknown (c : ascii) (rest : string) :
  spectral_type s = Some (String c rest) ->
  dict_get spectral_type_dict c = None ->
  calculate_from_spectral_type (mkWorld s inp)
  = (inl UnknownSpectralTypeError, mkWorld s inp).
Proof.
  intros Hs Hc. cbv beta iota delta [calculate_from_spectral_type bind get self].
  rewrite Hs. cbv beta iota delta [truthy_str String.eqb negb].
  unfold seed_from_table. rewrite Hc. reflexivity.
Qed.

End Dispatch.

Section MassPath.

Variables (s : StarCalculator) (inp : list line) (m : R).
Hypothesis mass_given : mass s = Some (Fl m).
Hypothesis mass_positive : 0 < m.

Lemma mass_run :
  calculate_from_mass (mkWorld s inp)
  = let '(r, z, inp') := prompt_outcome (metallicity s) inp in
    (r, mkWorld (after_mass m z) inp').
Proof.
  destruct s as [m0 t0 l0 st0 z0]. simpl in mass_given. subst m0.
  unfold after_mass, lifespan_formula, prompt_outcome.
  run. rdec. destruct (Rle_dec 0.43 m) as [Hm | Hm]; rdec;
    rewrite classifier_classify;
    destruct z0 as [z|]; try reflexivity;
    destruct inp as [|[| |] rest]; reflexivity.
Qed.

Lemma mass_run_self :
  exists z, self (snd (calculate_from_mass (mkWorld s inp))) = after_mass m z.
Proof.
  rewrite mass_run.
  destruct (prompt_outcome (metallicity s) inp) as [[r z] inp'].
  exists z. reflexivity.
Qed.

Lemma mass_run_known (z : R) :
  metallicity s = Some z ->
  calculate_from_mass (mkWorld s inp)
  = (inr tt, mkWorld (after_mass m (Some z)) inp).
Proof. intros Hz. rewrite mass_run, Hz. reflexivity. Qed.

End MassPath.

Lemma Rpower_one_base (y : R) : Rpower 1 y = 1.
Proof. unfold Rpower. rewrite ln_1, Rmult_0_r. apply exp_0. Qed.

Lemma classify_band (l : string) (lo hi d T : R) (z : Z) :
  In (l, lo, hi, d) band_table -> lo <= T < hi ->
  0 < d -> IZR z * d <= hi - T < (IZR z + 1) * d ->
  classify T = l ++ str_int (Z.min 9 z).
Proof.
  intros Hin HT Hd Hz. unfold classify.
  rewrite (classifier_band l lo hi d T Hin HT). unfold band_digit.
  rewrite (floordiv_unique (hi - T) d z Hd Hz). reflexivity.
Qed.

Lemma classify_sun : classify 5800 = "G2".
Proof.
  rewrite (classify_band "G" 5200 6000 80 5800 2).
  - reflexivity.
  - simpl. tauto.
  - lra.
  - lra.
  - simpl. lra.
Qed.

(** C2. From a mass [m] in range (between 10^-100 and 10^100), the
    mass-based derivation leaves temperature = 5800 * m^0.505 and
    lifespan = 10 * m^-2.5 (when m >= 0.43) or 15 * m^-1.8 (when
    m < 0.43) in the object, and returns normally whenever the object has
    a metallicity; for m = 1 that is temperature 5800, lifespan 10 and
    spectral type G2, of letter G. *)
Theorem mass_path_formulas (s : StarCalculator) (inp : list line) (m : R) :
  mass s = Some (Fl m) -> mass_in_range m ->
  let out := calculate_from_mass (mkWorld s inp) in
  temperature (self (snd out)) = Some (Fl (5800 * Rpower m 0.505))
  /\ (0.43 <= m -> lifespan (self (snd out)) = Some (Fl (10 * Rpower m (-2.5))))
  /\ (m < 0.43 -> lifespan (self (snd out)) = Some (Fl (15 * Rpower m (-1.8))))
  /\ (metallicity s <> None -> fst out = inr tt)
  /\ (m = 1 ->
      temperature (self (snd out)) = Some (Fl 5800)
      /\ lifespan (self (snd out)) = Some (Fl 10)
      /\ spectral_type (self (snd out)) = Some "G2").
Proof.
  intros Hm Hrange out.
  pose proof (mass_in_range_pos m Hrange) as Hpos.
  destruct (mass_run_self s inp m Hm Hpos) as [z Hz].
  fold out in Hz. rewrite Hz. unfold after_mass, lifespan_formula. simpl.
  split; [reflexivity|].
  split; [intros H; rdec; reflexivity|].
  split; [intros H; rdec; reflexivity|].
  split.
  - intros Hmet. destruct (metallicity s) as [v|] eqn:Hv; [|congruence].
    unfold out. rewrite (mass_run_known s inp m Hm Hpos v Hv). reflexivity.
  - intros ->. rdec. rewrite !Rpower_one_base.
    replace (5800 * 1) with 5800 by lra. replace (10 * 1) with 10 by lra.
    rewrite classify_sun. auto.
Qed.

Lemma mass_path_formulas_witness :
  let out := calculate_from_mass
               (mkWorld (init (Some (Fl 1)) None None None None) []) in
  temperature (self (snd out)) = Some (Fl 5800)
  /\ lifespan (self (snd out)) = Some (Fl 10)
  /\ spectral_type (self (snd out)) = Some "G2".
Proof.
  intros out.
  apply (mass_path_formulas (init (Some (Fl 1)) None None None None) [] 1).
  - reflexivity.
  - unfold mass_in_range. lra.
  - reflexivity.
Defined.

(** ** Seeds that are not positive *)

Section MassNotPositive.

Variables (s : StarCalculator) (inp : list line).

Lemma mass_run_falsy :
  truthy (mass s) = false ->
  calculate_from_mass (mkWorld s inp) = (inl InvalidMassError, mkWorld s inp).
Proof.
  intros H. unfold calculate_from_mass, bind, get. simpl. rewrite H. reflexivity.
Qed.

Lemma mass_run_negative_world (m : R) :
  mass s = Some (Fl m) -> m < 0 ->
  calculate_from_mass (mkWorld s inp)
  = (inl TypeError,
     mkWorld (mkStar (Some (Fl m)) (Some Cx) (Some Cx) (spectral_type s)
                     (metallicity s)) inp).
Proof.
  destruct s as [m0 t0 l0 st0 z0]. simpl. intros -> Hm.
  run. rdec. reflexivity.
Qed.

Lemma mass_run_negative (m : R) :
  mass s = Some (Fl m) -> m < 0 ->
  fst (calculate_from_mass (mkWorld s inp)) = inl TypeError.
Proof. intros Hs Hm. rewrite (mass_run_negative_world m Hs Hm). reflexivity. Qed.

Lemma mass_run_complex_world :
  mass s = Some Cx ->
  calculate_from_mass (mkWorld s inp)
  = (inl TypeError,
     mkWorld (mkStar (Some Cx) (Some Cx) (lifespan s) (spectral_type s)
                     (metallicity s)) inp).
Proof.
  destruct s as [m0 t0 l0 st0 z0]. simpl. intros ->.
  run. reflexivity.
Qed.

Lemma mass_run_complex :
  mass s = Some Cx ->
  fst (calculate_from_mass (mkWorld s inp)) = inl TypeError.
Proof. intros Hs. rewrite (mass_run_complex_world Hs). reflexivity. Qed.

End MassNotPositive.

Lemma falsy_iff (x : option num) :
  truthy x = false <-> x = None \/ x = Some (Fl 0).
Proof.
  split.
  - destruct x as [[r|]|]; simpl; auto.
    + unfold Reqb. destruct (Req_dec_T r 0) as [-> | Hr]; simpl; auto.
      discriminate.
    + discriminate.
  - intros [-> | ->]; simpl; [reflexivity|]. rdec. reflexivity.
Qed.

Lemma prompt_outcome_error (z : option R) (inp : list line) :
  fst (fst (prompt_outcome z inp)) <> inl InvalidMassError
  /\ fst (fst (prompt_outcome z inp)) <> inl InvalidTemperatureError.
Proof.
  destruct z as [v|]; [split; discriminate|].
  destruct inp as [|[| |] rest]; split; discriminate.
Qed.

(** The mass-based derivation raises [InvalidMassError] on a falsy mass
    only. *)
Lemma mass_error_iff (w : world) :
  fst (calculate_from_mass w) = inl InvalidMassError
  <-> truthy (mass (self w)) = false.
Proof.
  destruct w as [s inp]. simpl. split.
  - intros H. destruct (truthy (mass s)) eqn:Ht; [exfalso | reflexivity].
    destruct (mass s) as [[m|]|] eqn:Hm; simpl in Ht.
    + unfold Reqb in Ht. destruct (Req_dec_T m 0) as [-> | Hne];
        [discriminate|].
      destruct (Rtotal_order m 0) as [Hlt | [Heq | Hgt]].
      * rewrite (mass_run_negative s inp m Hm Hlt) in H. discriminate.
      * contradiction.
      * rewrite (mass_run s inp m Hm Hgt) in H.
        pose proof (prompt_outcome_error (metallicity s) inp) as [Hp _].
        destruct (prompt_outcome (metallicity s) inp) as [[r z] inp'].
        simpl in *. contradiction.
    + rewrite (mass_run_complex s inp Hm) in H. discriminate.
    + discriminate.
  - intros H. rewrite (mass_run_falsy s inp H). reflexivity.
Qed.

(** ** The temperature path *)

Lemma estimated_mass_pos (t : R) : 0 < estimated_mass t.
Proof. unfold estimated_mass, Rpower. apply exp_pos. Qed.

Lemma round_trip (t : R) :
  0 < t -> 5800 * Rpower (estimated_mass t) 0.505 = t.
Proof.
  intros Ht. unfold estimated_mass. rewrite Rpower_mult.
  replace (1 / 0.505 * 0.505) with 1 by (field; lra).
  rewrite Rpower_1.
  - field.
  - apply Rdiv_lt_0_compat; lra.
Qed.

(** The round trip of section 8, started from a mass: the temperature of
    the mass estimated from the temperature of [m] is the temperature of
    [m]. *)
Lemma forward_inverse_forward (m : R) :
  0 < m ->
  5800 * Rpower (estimated_mass (5800 * Rpower m 0.505)) 0.505
  = 5800 * Rpower m 0.505.
Proof.
  intros Hm. apply round_trip.
  apply Rmult_lt_0_compat; [lra|]. unfold Rpower. apply exp_pos.
Qed.

Section TemperaturePath.

Variables (s : StarCalculator) (inp : list line).

Lemma temperature_run_falsy :
  truthy (temperature s) = false ->
  calculate_from_temperature (mkWorld s inp)
  = (inl InvalidTemperatureError, mkWorld s inp).
Proof.
  intros H. unfold calculate_from_temperature, bind, get. simpl.
  rewrite H. reflexivity.
Qed.

Lemma temperature_run (t : R) :
  temperature s = Some (Fl t) -> 0 < t ->
  calculate_from_temperature (mkWorld s inp)
  = let '(r, z, inp') := prompt_outcome (metallicity s) inp in
    (r, mkWorld (after_mass (estimated_mass t) z) inp').
Proof.
  destruct s as [m0 t0 l0 st0 z0]. simpl. intros -> Ht.
  unfold calculate_from_temperature. monad. rdec.
  assert (Hq : 0 < t / 5800) by (apply Rdiv_lt_0_compat; lra).
  rdec. fold (estimated_mass t).
  rewrite (mass_run (mkStar (Some (Fl (estimated_mass t))) (Some (Fl t))
                            l0 st0 z0)
             inp (estimated_mass t) eq_refl (estimated_mass_pos t)).
  reflexivity.
Qed.

Lemma temperature_run_negative_world (t : R) :
  temperature s = Some (Fl t) -> t < 0 ->
  calculate_from_temperature (mkWorld s inp)
  = (inl TypeError,
     mkWorld (mkStar (Some Cx) (Some Cx) (lifespan s) (spectral_type s)
                     (metallicity s)) inp).
Proof.
  destruct s as [m0 t0 l0 st0 z0]. simpl. intros -> Ht.
  unfold calculate_from_temperature. monad. rdec.
  assert (Hq : t / 5800 < 0).
  { apply Rmult_lt_reg_r with 5800; [lra|].
    replace (t / 5800 * 5800) with t by (field; lra). lra. }
  rdec.
  rewrite (mass_run_complex_world (mkStar (Some Cx) (Some (Fl t)) l0 st0 z0)
             inp eq_refl).
  reflexivity.
Qed.

Lemma temperature_run_negative (t : R) :
  temperature s = Some (Fl t) -> t < 0 ->
  fst (calculate_from_temperature (mkWorld s inp)) = inl TypeError.
Proof.
  intros Hs Ht. rewrite (temperature_run_negative_world t Hs Ht). reflexivity.
Qed.

Lemma temperature_run_complex_world :
  temperature s = Some Cx ->
  calculate_from_temperature (mkWorld s inp)
  = (inl TypeError,
     mkWorld (mkStar (Some Cx) (Some Cx) (lifespan s) (spectral_type s)
                     (metallicity s)) inp).
Proof.
  destruct s as [m0 t0 l0 st0 z0]. simpl. intros ->.
  unfold calculate_from_temperature. monad.
  rewrite (mass_run_complex_world (mkStar (Some Cx) (Some Cx) l0 st0 z0)
             inp eq_refl).
  reflexivity.
Qed.

Lemma temperature_run_complex :
  temperature s = Some Cx ->
  fst (calculate_from_temperature (mkWorld s inp)) = inl TypeError.
Proof.
  intros Hs. rewrite (temperature_run_complex_world Hs). reflexivity.
Qed.

End TemperaturePath.

Lemma temperature_error_iff (w : world) :
  fst (calculate_from_temperature w) = inl InvalidTemperatureError
  <-> truthy (temperature (self w)) = false.
Proof.
  destruct w as [s inp]. simpl. split.
  - intros H. destruct (truthy (temperature s)) eqn:Ht; [exfalso | reflexivity].
    destruct (temperature s) as [[t|]|] eqn:Htemp; simpl in Ht.
    + unfold Reqb in Ht. destruct (Req_dec_T t 0) as [-> | Hne];
        [discriminate|].
      destruct (Rtotal_order t 0) as [Hlt | [Heq | Hgt]].
      * rewrite (temperature_run_negative s inp t Htemp Hlt) in H.
        discriminate.
      * contradiction.
      * rewrite (temperature_run s inp t Htemp Hgt) in H.
        pose proof (prompt_outcome_error (metallicity s) inp) as [_ Hp].
        destruct (prompt_outcome (metallicity s) inp) as [[r z] inp'].
        simpl in *. contradiction.
    + rewrite (temperature_run_complex s inp Htemp) in H. discriminate.
    + discriminate.
  - intros H. rewrite (temperature_run_falsy s inp H). reflexivity.
Qed.





(** C5, as the code has it.  The guards test truthiness: the mass-based
    derivation raises [InvalidMassError] exactly when the mass is absent or
    zero, and the temperature-based derivation raises
    [InvalidTemperatureError] exactly when the temperature is absent or
    zero. *)
Theorem guards_reject_absent_or_zero (w : world) :
  (fst (calculate_from_mass w) = inl InvalidMassError
   <-> mass (self w) = None \/ mass (self w) = Some (Fl 0))
  /\ (fst (calculate_from_temperature w) = inl InvalidTemperatureError
      <-> temperature (self w) = None \/ temperature (self w) = Some (Fl 0)).
Proof.
  split.
  - rewrite mass_error_iff. apply falsy_iff.
  - rewrite temperature_error_iff. apply falsy_iff.
Qed.

(** C5 fails as stated: a mass of -1 passes the guard of the mass-based
    derivation, which then stops on a [TypeError], and so does a
    temperature of -1 in the temperature-based derivation. *)
Lemma negative_seed_not_rejected :
  (fst (calculate_from_mass
          (mkWorld (init (Some (Fl (-1))) None None None None) []))
   = inl TypeError
   /\ inl TypeError <> (inl InvalidMassError : exn + unit))
  /\ (fst (calculate_from_temperature
             (mkWorld (init None (Some (Fl (-1))) None None None) []))
      = inl TypeError
      /\ inl TypeError <> (inl InvalidTemperatureError : exn + unit)).
Proof.
  split; split; try discriminate.
  - apply (mass_run_negative _ _ (-1)); [reflexivity | lra].
  - apply (temperature_run_negative _ _ (-1)); [reflexivity | lra].
Qed.

(** The script never hands a negative seed to the class: what it builds
    from negative numbers and no spectral type has no seed at all. *)
Lemma script_negative_seeds_missing
    (mass_input temperature_input : R) (z : option R) (inp : list line) :
  mass_input <= 0 -> temperature_input <= 0 ->
  calculate_properties
    (mkWorld (example_usage mass_input temperature_input None z) inp)
  = (inl MissingSeedError,
     mkWorld (example_usage mass_input temperature_input None z) inp).
Proof.
  intros Hm Ht. apply dispatch_missing; unfold example_usage; rdec;
    reflexivity.
Qed.

(** ** Parsing the subclass *)

Lemma int_acc_of_uint (d : uint) (acc : nat) :
  int_acc (Z.of_nat acc) (NilEmpty.string_of_uint d)
  = Z.of_nat (Nat.of_uint_acc d acc).
Proof.
  revert acc.
  induction d; intros acc;
    cbn [NilEmpty.string_of_uint int_acc Nat.of_uint_acc];
    [reflexivity | ..];
    rewrite <- IHd; f_equal; rewrite Nat.tail_mul_spec;
    match goal with
    | |- context [nat_of_ascii ?a] =>
        let v := eval vm_compute in (nat_of_ascii a) in
        change (nat_of_ascii a) with v
    end; lia.
Qed.

Lemma all_digits_of_uint (d : uint) :
  all_digits (NilEmpty.string_of_uint d) = true.
Proof. induction d; simpl; auto. Qed.

Lemma int_decimal (n : nat) : int (decimal n) = Z.of_nat n.
Proof.
  unfold int, decimal. change 0%Z with (Z.of_nat 0).
  rewrite int_acc_of_uint. fold (Nat.of_uint (Nat.to_uint n)).
  rewrite Unsigned.of_to. reflexivity.
Qed.

Lemma isdigit_decimal (n : nat) : isdigit (decimal n) = true.
Proof.
  unfold decimal.
  assert (Hn : Nat.to_uint n <> Nil).
  { rewrite <- (Unsigned.of_to n) at 1. rewrite Unsigned.to_of.
    apply unorm_nonnil. }
  pose proof (all_digits_of_uint (Nat.to_uint n)) as Hall.
  destruct (Nat.to_uint n); [contradiction | ..]; exact Hall.
Qed.

(** Line 70 on a string with a first character: the guard on the length
    is implied by [isdigit]. *)
Lemma subclass_of_rest (c : ascii) (rest : string) :
  subclass_of (String c rest) = if isdigit rest then int rest else 0%Z.
Proof.
  unfold subclass_of. destruct rest as [|c' rest']; reflexivity.
Qed.

(** ** The spectral-type path *)

Lemma dict_get_in (c : ascii) (bm bt : R) :
  In (c, (bm, bt)) spectral_type_dict ->
  dict_get spectral_type_dict c = Some (bm, bt).
Proof.
  unfold spectral_type_dict. simpl.
  intros H.
  repeat (destruct H as [H | H]; [injection H as <- <- <-; reflexivity|]).
  contradiction.
Qed.

Lemma dict_get_some (c : ascii) (bm bt : R) :
  dict_get spectral_type_dict c = Some (bm, bt) ->
  In (c, (bm, bt)) spectral_type_dict.
Proof.
  unfold spectral_type_dict. cbn [dict_get In].
  repeat match goal with
  | |- context [Ascii.eqb ?a c] =>
      destruct (Ascii.eqb_spec a c) as [<- | _];
      [ intros H; injection H as <- <-; tauto | ]
  end.
  discriminate.
Qed.

Section SpectralPath.

Variables (s : StarCalculator) (inp : list line).
Variables (c : ascii) (rest : string) (bm bt : R).
Hypothesis type_given : spectral_type s = Some (String c rest).
Hypothesis in_table : dict_get spectral_type_dict c = Some (bm, bt).

Local Abbreviation af := (adjustment_factor (subclass_of (String c rest))).

Lemma seed_run :
  seed_from_table (String c rest) (mkWorld s inp)
  = (inr tt, mkWorld (seeded s (bm * af) (bt * af)) inp).
Proof.
  unfold seed_from_table. rewrite in_table. unfold seeded.
  destruct s; reflexivity.
Qed.

Lemma spectral_run_seed :
  calculate_from_spectral_type (mkWorld s inp)
  = lifespan_after_seed (mkWorld (seeded s (bm * af) (bt * af)) inp).
Proof.
  unfold calculate_from_spectral_type.
  cbv beta iota delta [bind get self]. rewrite type_given.
  cbv beta iota delta [truthy_str String.eqb negb].
  rewrite seed_run. reflexivity.
Qed.

Lemma spectral_run_light :
  0 < bm * af < 0.43 ->
  calculate_from_spectral_type (mkWorld s inp)
  = (inr tt,
     mkWorld (mkStar (Some (Fl (bm * af))) (Some (Fl (bt * af)))
                     (Some (Fl (15 * Rpower (bm * af) (-1.8))))
                     (Some (String c rest)) (metallicity s)) inp).
Proof.
  intros Hm. rewrite spectral_run_seed. unfold seeded. rewrite type_given.
  unfold lifespan_after_seed. monad. rdec. reflexivity.
Qed.

Lemma spectral_run_negative :
  bm * af < 0 ->
  calculate_from_spectral_type (mkWorld s inp)
  = (inr tt,
     mkWorld (mkStar (Some (Fl (bm * af))) (Some (Fl (bt * af)))
                     (Some Cx) (Some (String c rest)) (metallicity s)) inp).
Proof.
  intros Hm. rewrite spectral_run_seed. unfold seeded. rewrite type_given.
  unfold lifespan_after_seed. monad. rdec. reflexivity.
Qed.

Lemma spectral_run_zero :
  bm * af = 0 ->
  calculate_from_spectral_type (mkWorld s inp)
  = (inl ZeroDivisionError,
     mkWorld (mkStar (Some (Fl (bm * af))) (Some (Fl (bt * af)))
                     (lifespan s) (Some (String c rest)) (metallicity s)) inp).
Proof.
  intros Hm. rewrite spectral_run_seed. unfold seeded. rewrite type_given.
  unfold lifespan_after_seed. monad. rdec. reflexivity.
Qed.

Lemma spectral_run_heavy :
  0.43 <= bm * af ->
  calculate_from_spectral_type (mkWorld s inp)
  = let '(r, z, inp') := prompt_outcome (metallicity s) inp in
    (r, mkWorld (after_mass (bm * af) z) inp').
Proof.
  intros Hm. rewrite spectral_run_seed.
  unfold lifespan_after_seed.
  cbv beta iota delta [bind get get_num lift ret raise num_lt self mass seeded].
  rdec.
  rewrite (mass_run (mkStar (Some (Fl (bm * af))) (Some (Fl (bt * af)))
                            (lifespan s) (spectral_type s) (metallicity s))
             inp (bm * af) eq_refl ltac:(lra)).
  reflexivity.
Qed.

End SpectralPath.

Lemma all_digits_nondigit (rest : string) (ch : ascii) :
  In ch (list_ascii_of_string rest) -> is_digit ch = false ->
  all_digits rest = false.
Proof.
  induction rest as [|c' rest' IH]; cbn [list_ascii_of_string In all_digits].
  - contradiction.
  - intros [-> | Hin] Hch.
    + rewrite Hch. reflexivity.
    + rewrite (IH Hin Hch). apply andb_false_r.
Qed.

Lemma isdigit_nondigit (rest : string) (ch : ascii) :
  In ch (list_ascii_of_string rest) -> is_digit ch = false ->
  isdigit rest = false.
Proof.
  intros Hin Hch. destruct rest as [|c' rest']; [reflexivity|].
  exact (all_digits_nondigit _ ch Hin Hch).
Qed.

(** Whatever branch follows the seed step, the mass it wrote is the mass
    of the object when the method ends. *)
Lemma spectral_final_mass (s : StarCalculator) (inp : list line)
    (c : ascii) (rest : string) (bm bt : R) :
  spectral_type s = Some (String c rest) ->
  dict_get spectral_type_dict c = Some (bm, bt) ->
  mass (self (snd (calculate_from_spectral_type (mkWorld s inp))))
  = Some (Fl (bm * adjustment_factor (subclass_of (String c rest)))).
Proof.
  intros Hs Hget.
  set (M := bm * adjustment_factor (subclass_of (String c rest))).
  destruct (Rtotal_order M 0) as [Hneg | [Hzero | Hpos]].
  - rewrite (spectral_run_negative s inp c rest bm bt Hs Hget Hneg).
    reflexivity.
  - rewrite (spectral_run_zero s inp c rest bm bt Hs Hget Hzero).
    reflexivity.
  - destruct (Rlt_dec M 0.43) as [Hlight | Hheavy].
    + rewrite (spectral_run_light s inp c rest bm bt Hs Hget
                 (conj Hpos Hlight)).
      reflexivity.
    + rewrite (spectral_run_heavy s inp c rest bm bt Hs Hget
                 ltac:(unfold M in Hheavy; lra)).
      destruct (prompt_outcome (metallicity s) inp) as [[o z] inp'].
      reflexivity.
Qed.

(** C7. On an object whose spectral type is a table letter followed by a
    plain text [rest] (at most 100 ASCII characters), with reference
    values [bm] and [bt]: [calculate_from_spectral_type] takes [rest] as
    the subclass when it is a non-empty run of digits (so the numeral of
    [n] gives [n]) and 0 otherwise (an empty rest, or one with a character
    that is not a digit), writes mass = bm * af and temperature = bt * af
    with af = 1 + 0.01 * (5 - subclass), and goes on with its lifespan step
    from the object so written; that mass is still the mass of the object
    when the method ends.  For the input M5 the factor is 1 and the
    values written are 0.5 and 3500. *)
Theorem spectral_seed_adjustment (s : StarCalculator) (inp : list line)
    (c : ascii) (rest : string) (bm bt : R) :
  spectral_type s = Some (String c rest) ->
  In (c, (bm, bt)) spectral_type_dict ->
  plain_text rest ->
  let subclass := subclass_of (String c rest) in
  let af := 1 + 0.01 * (5 - IZR subclass) in
  let out := calculate_from_spectral_type (mkWorld s inp) in
  out = lifespan_after_seed
          (mkWorld (mkStar (Some (Fl (bm * af))) (Some (Fl (bt * af)))
                           (lifespan s) (spectral_type s) (metallicity s))
                   inp)
  /\ seed_from_table (String c rest) (mkWorld s inp)
     = (inr tt,
        mkWorld (mkStar (Some (Fl (bm * af))) (Some (Fl (bt * af)))
                        (lifespan s) (spectral_type s) (metallicity s)) inp)
  /\ mass (self (snd out)) = Some (Fl (bm * af))
  /\ subclass = (if isdigit rest then int rest else 0%Z)
  /\ (forall n : nat, rest = decimal n -> subclass = Z.of_nat n)
  /\ (rest = "" -> subclass = 0%Z)
  /\ (forall ch, In ch (list_ascii_of_string rest) -> is_digit ch = false ->
      subclass = 0%Z)
  /\ (c = "M"%char -> rest = "5" ->
      af = 1
      /\ out = lifespan_after_seed
                 (mkWorld (mkStar (Some (Fl 0.5)) (Some (Fl 3500))
                                  (lifespan s) (spectral_type s)
                                  (metallicity s)) inp)
      /\ mass (self (snd out)) = Some (Fl 0.5)).
Proof.
  intros Hs Hin Hplain subclass af out.
  pose proof (dict_get_in c bm bt Hin) as Hget.
  assert (Hrun : out = lifespan_after_seed
                         (mkWorld (mkStar (Some (Fl (bm * af)))
                                          (Some (Fl (bt * af)))
                                          (lifespan s) (spectral_type s)
                                          (metallicity s)) inp)).
  { unfold out. rewrite (spectral_run_seed s inp c rest bm bt Hs Hget).
    reflexivity. }
  assert (Hmass : mass (self (snd out)) = Some (Fl (bm * af))).
  { unfold out. apply (spectral_final_mass s inp c rest bm bt Hs Hget). }
  split; [exact Hrun|].
  split; [apply (seed_run s inp c rest bm bt Hs Hget)|].
  split; [exact Hmass|].
  split; [apply subclass_of_rest|].
  split.
  { intros n ->. unfold subclass. rewrite subclass_of_rest.
    rewrite isdigit_decimal. apply int_decimal. }
  split.
  { intros ->. reflexivity. }
  split.
  { intros ch Hch Hnd. unfold subclass. rewrite subclass_of_rest.
    rewrite (isdigit_nondigit rest ch Hch Hnd). reflexivity. }
  intros Hc Hrest.
  assert (Haf : af = 1).
  { unfold af, subclass. rewrite Hrest.
    change (subclass_of (String c "5")) with 5%Z. lra. }
  split; [exact Haf|].
  rewrite Hc in Hget. injection Hget as <- <-.
  split.
  - rewrite Hrun, Haf.
    replace (0.5 * 1) with 0.5 by lra. replace (3500 * 1) with 3500 by lra.
    reflexivity.
  - rewrite Hmass, Haf. replace (0.5 * 1) with 0.5 by lra. reflexivity.
Qed.

Lemma spectral_seed_adjustment_witness :
  let out := calculate_from_spectral_type
               (mkWorld (init None None None (Some "M5") None) []) in
  out = lifespan_after_seed
          (mkWorld (mkStar (Some (Fl 0.5)) (Some (Fl 3500)) None (Some "M5")
                           (Some 1)) [])
  /\ mass (self (snd out)) = Some (Fl 0.5).
Proof.
  cbv zeta.
  destruct (spectral_seed_adjustment
              (init None None None (Some "M5") None) []
              "M"%char "5" 0.5 3500 eq_refl)
    as (_ & _ & _ & _ & _ & _ & _ & HM5).
  - unfold spectral_type_dict. simpl. tauto.
  - split; [reflexivity | simpl; lia].
  - exact (proj2 (HM5 eq_refl eq_refl)).
Defined.



Lemma truthy_cases (x : option num) :
  (truthy x = false /\ (x = None \/ x = Some (Fl 0)))
  \/ (truthy x = true
      /\ ((exists r, x = Some (Fl r) /\ r < 0)
          \/ (exists r, x = Some (Fl r) /\ 0 < r)
          \/ x = Some Cx)).
Proof.
  destruct x as [[r|]|].
  - destruct (Rtotal_order r 0) as [Hlt | [-> | Hgt]].
    + right. split; [simpl; rdec; reflexivity | left; eauto].
    + left. split; [simpl; rdec; reflexivity | auto].
    + right. split; [simpl; rdec; reflexivity | right; left; eauto].
  - right. split; [reflexivity | auto].
  - left. auto.
Qed.

Lemma truthy_str_cases (x : option string) :
  (truthy_str x = false /\ (x = None \/ x = Some ""))
  \/ (truthy_str x = true /\ exists c rest, x = Some (String c rest)).
Proof.
  destruct x as [[|c rest]|]; [left | right | left]; split; eauto.
Qed.

(** ** Errors of each path *)

Lemma prompt_outcome_errors (z : option R) (inp : list line) (e : exn) :
  fst (fst (prompt_outcome z inp)) = inl e ->
  e = EOFError \/ e = could_not_convert.
Proof.
  destruct z as [v|]; [discriminate|].
  destruct inp as [|[| |] rest]; simpl; intros H;
    try discriminate; injection H as <-; auto.
Qed.

Lemma mass_errors (w : world) (e : exn) :
  fst (calculate_from_mass w) = inl e ->
  e = InvalidMassError \/ e = TypeError \/ e = EOFError
  \/ e = could_not_convert.
Proof.
  destruct w as [s inp].
  destruct (truthy_cases (mass s))
    as [[Hf _] | [_ [(r & Hr & Hneg) | [(r & Hr & Hpos) | Hc]]]].
  - rewrite (mass_run_falsy s inp Hf). simpl. intros H. injection H as <-. auto.
  - rewrite (mass_run_negative_world s inp r Hr Hneg). simpl.
    intros H. injection H as <-. auto.
  - rewrite (mass_run s inp r Hr Hpos). intros H.
    pose proof (prompt_outcome_errors (metallicity s) inp e) as Hp.
    destruct (prompt_outcome (metallicity s) inp) as [[o z] inp'].
    simpl in *. destruct (Hp H); auto.
  - rewrite (mass_run_complex_world s inp Hc). simpl.
    intros H. injection H as <-. auto.
Qed.

Lemma temperature_errors (w : world) (e : exn) :
  fst (calculate_from_temperature w) = inl e ->
  e = InvalidTemperatureError \/ e = TypeError \/ e = EOFError
  \/ e = could_not_convert.
Proof.
  destruct w as [s inp].
  destruct (truthy_cases (temperature s))
    as [[Hf _] | [_ [(r & Hr & Hneg) | [(r & Hr & Hpos) | Hc]]]].
  - rewrite (temperature_run_falsy s inp Hf). simpl.
    intros H. injection H as <-. auto.
  - rewrite (temperature_run_negative_world s inp r Hr Hneg). simpl.
    intros H. injection H as <-. auto.
  - rewrite (temperature_run s inp r Hr Hpos). intros H.
    pose proof (prompt_outcome_errors (metallicity s) inp e) as Hp.
    destruct (prompt_outcome (metallicity s) inp) as [[o z] inp'].
    simpl in *. destruct (Hp H); auto.
  - rewrite (temperature_run_complex_world s inp Hc). simpl.
    intros H. injection H as <-. auto.
Qed.

Lemma spectral_errors (w : world) (e : exn) :
  fst (calculate_from_spectral_type w) = inl e ->
  e = MissingSpectralTypeError \/ e = UnknownSpectralTypeError
  \/ e = ZeroDivisionError \/ e = EOFError \/ e = could_not_convert.
Proof.
  destruct w as [s inp].
  destruct (truthy_str_cases (spectral_type s))
    as [[Hf _] | [_ (c & rest & Hs)]].
  - rewrite (spectral_run_falsy s inp Hf). simpl.
    intros H. injection H as <-. auto.
  - destruct (dict_get spectral_type_dict c) as [[bm bt]|] eqn:Hget.
    + set (M := bm * adjustment_factor (subclass_of (String c rest))).
      destruct (Rtotal_order M 0) as [Hneg | [Hzero | Hpos]].
      * rewrite (spectral_run_negative s inp c rest bm bt Hs Hget Hneg).
        discriminate.
      * rewrite (spectral_run_zero s inp c rest bm bt Hs Hget Hzero).
        simpl. intros H. injection H as <-. auto.
      * destruct (Rlt_dec M 0.43) as [Hlight | Hheavy].
        -- rewrite (spectral_run_light s inp c rest bm bt Hs Hget
                      (conj Hpos Hlight)).
           discriminate.
        -- rewrite (spectral_run_heavy s inp c rest bm bt Hs Hget
                      ltac:(unfold M in Hheavy; lra)).
           intros H.
           pose proof (prompt_outcome_errors (metallicity s) inp e) as Hp.
           destruct (prompt_outcome (metallicity s) inp) as [[o z] inp'].
           simpl in *. destruct (Hp H); auto.
    + rewrite (spectral_run_unknown s inp c rest Hs Hget). simpl.
      intros H. injection H as <-. auto.
Qed.

(** ** What every path leaves alone *)

Section Frame.

Variables (s : StarCalculator) (inp : list line) (z : R).
Hypothesis metallicity_known : metallicity s = Some z.

Lemma mass_frame :
  let out := calculate_from_mass (mkWorld s inp) in
  metallicity (self (snd out)) = Some z /\ stdin (snd out) = inp.
Proof.
  destruct (truthy_cases (mass s))
    as [[Hf _] | [_ [(r & Hr & Hneg) | [(r & Hr & Hpos) | Hc]]]].
  - rewrite (mass_run_falsy s inp Hf). auto.
  - rewrite (mass_run_negative_world s inp r Hr Hneg). auto.
  - rewrite (mass_run_known s inp r Hr Hpos z metallicity_known). auto.
  - rewrite (mass_run_complex_world s inp Hc). auto.
Qed.

Lemma temperature_frame :
  let out := calculate_from_temperature (mkWorld s inp) in
  metallicity (self (snd out)) = Some z /\ stdin (snd out) = inp.
Proof.
  destruct (truthy_cases (temperature s))
    as [[Hf _] | [_ [(r & Hr & Hneg) | [(r & Hr & Hpos) | Hc]]]].
  - rewrite (temperature_run_falsy s inp Hf). auto.
  - rewrite (temperature_run_negative_world s inp r Hr Hneg). auto.
  - rewrite (temperature_run s inp r Hr Hpos), metallicity_known. auto.
  - rewrite (temperature_run_complex_world s inp Hc). auto.
Qed.

Lemma spectral_frame :
  let out := calculate_from_spectral_type (mkWorld s inp) in
  metallicity (self (snd out)) = Some z /\ stdin (snd out) = inp.
Proof.
  destruct (truthy_str_cases (spectral_type s))
    as [[Hf _] | [_ (c & rest & Hs)]].
  - rewrite (spectral_run_falsy s inp Hf). auto.
  - destruct (dict_get spectral_type_dict c) as [[bm bt]|] eqn:Hget.
    + set (M := bm * adjustment_factor (subclass_of (String c rest))).
      destruct (Rtotal_order M 0) as [Hneg | [Hzero | Hpos]].
      * rewrite (spectral_run_negative s inp c rest bm bt Hs Hget Hneg). auto.
      * rewrite (spectral_run_zero s inp c rest bm bt Hs Hget Hzero). auto.
      * destruct (Rlt_dec M 0.43) as [Hlight | Hheavy].
        -- rewrite (spectral_run_light s inp c rest bm bt Hs Hget
                      (conj Hpos Hlight)).
           auto.
        -- rewrite (spectral_run_heavy s inp c rest bm bt Hs Hget
                      ltac:(unfold M in Hheavy; lra)).
           rewrite metallicity_known. auto.
    + rewrite (spectral_run_unknown s inp c rest Hs Hget). auto.
Qed.

Lemma properties_frame :
  let out := calculate_properties (mkWorld s inp) in
  metallicity (self (snd out)) = Some z /\ stdin (snd out) = inp.
Proof.
  destruct (truthy (mass s)) eqn:Hm.
  { rewrite (dispatch_mass s inp Hm). apply mass_frame. }
  destruct (truthy (temperature s)) eqn:Ht.
  { rewrite (dispatch_temperature s inp Hm Ht). apply temperature_frame. }
  destruct (truthy_str (spectral_type s)) eqn:Hs.
  { rewrite (dispatch_spectral_type s inp Hm Ht Hs). apply spectral_frame. }
  rewrite (dispatch_missing s inp Hm Ht Hs). auto.
Qed.

End Frame.

(** C9, on the code.  Whatever the seed, an object built by [__init__]
    keeps the metallicity it was given, or 1.0 when none was given, through
    [calculate_properties], and nothing is read from standard input: the
    constructor has already replaced a missing metallicity by 1.0, so the
    prompt of the mass-based derivation is never reached. *)
Theorem metallicity_default_without_prompt
    (m t l : option num) (st : option string) (z : option R)
    (inp : list line) :
  let out := calculate_properties (mkWorld (init m t l st z) inp) in
  metallicity (self (snd out))
  = Some (match z with Some v => v | None => 1 end)
  /\ stdin (snd out) = inp.
Proof.
  apply properties_frame. reflexivity.
Qed.

(** The prompt itself works as the comment on it says, on an object whose
    metallicity attribute has been set to [None] after construction. *)
Lemma mass_prompt_when_attribute_missing
    (s : StarCalculator) (m : R) (rest : list line) :
  mass s = Some (Fl m) -> 0 < m -> metallicity s = None ->
  calculate_from_mass (mkWorld s (Blank :: rest))
  = (inr tt, mkWorld (after_mass m (Some 1)) rest).
Proof.
  intros Hm Hpos Hz. rewrite (mass_run s _ m Hm Hpos), Hz. reflexivity.
Qed.

(** ** Precedence of the seeds *)

Lemma same_outcome_refl (a : (exn + unit) * world) : same_outcome a a.
Proof. split; auto. Qed.

Lemma same_outcome_failed (a b : (exn + unit) * world) (e : exn) :
  fst a = inl e -> fst b = inl e -> same_outcome a b.
Proof.
  intros Ha Hb. split; [congruence|]. rewrite Ha. discriminate.
Qed.

Section Independence.

Variables (s1 s2 : StarCalculator) (inp : list line).
Hypothesis same_metallicity : metallicity s1 = metallicity s2.

Lemma mass_same_outcome :
  mass s1 = mass s2 ->
  same_outcome (calculate_from_mass (mkWorld s1 inp))
               (calculate_from_mass (mkWorld s2 inp)).
Proof.
  intros Hm.
  destruct (truthy_cases (mass s1))
    as [[Hf _] | [_ [(r & Hr & Hneg) | [(r & Hr & Hpos) | Hc]]]].
  - apply same_outcome_failed with InvalidMassError.
    + rewrite (mass_run_falsy s1 inp Hf). reflexivity.
    + rewrite Hm in Hf. rewrite (mass_run_falsy s2 inp Hf). reflexivity.
  - apply same_outcome_failed with TypeError.
    + exact (mass_run_negative s1 inp r Hr Hneg).
    + rewrite Hm in Hr. exact (mass_run_negative s2 inp r Hr Hneg).
  - rewrite (mass_run s1 inp r Hr Hpos).
    rewrite Hm in Hr. rewrite (mass_run s2 inp r Hr Hpos).
    rewrite same_metallicity. apply same_outcome_refl.
  - apply same_outcome_failed with TypeError.
    + exact (mass_run_complex s1 inp Hc).
    + rewrite Hm in Hc. exact (mass_run_complex s2 inp Hc).
Qed.

Lemma temperature_same_outcome :
  temperature s1 = temperature s2 ->
  same_outcome (calculate_from_temperature (mkWorld s1 inp))
               (calculate_from_temperature (mkWorld s2 inp)).
Proof.
  intros Ht.
  destruct (truthy_cases (temperature s1))
    as [[Hf _] | [_ [(r & Hr & Hneg) | [(r & Hr & Hpos) | Hc]]]].
  - apply same_outcome_failed with InvalidTemperatureError.
    + rewrite (temperature_run_falsy s1 inp Hf). reflexivity.
    + rewrite Ht in Hf. rewrite (temperature_run_falsy s2 inp Hf).
      reflexivity.
  - apply same_outcome_failed with TypeError.
    + exact (temperature_run_negative s1 inp r Hr Hneg).
    + rewrite Ht in Hr. exact (temperature_run_negative s2 inp r Hr Hneg).
  - rewrite (temperature_run s1 inp r Hr Hpos).
    rewrite Ht in Hr. rewrite (temperature_run s2 inp r Hr Hpos).
    rewrite same_metallicity. apply same_outcome_refl.
  - apply same_outcome_failed with TypeError.
    + exact (temperature_run_complex s1 inp Hc).
    + rewrite Ht in Hc. exact (temperature_run_complex s2 inp Hc).
Qed.

Lemma spectral_same_outcome :
  spectral_type s1 = spectral_type s2 -> lifespan s1 = lifespan s2 ->
  same_outcome (calculate_from_spectral_type (mkWorld s1 inp))
               (calculate_from_spectral_type (mkWorld s2 inp)).
Proof.
  intros Hst Hl.
  destruct (truthy_str_cases (spectral_type s1))
    as [[Hf _] | [_ (c & rest & Hs)]].
  - apply same_outcome_failed with MissingSpectralTypeError.
    + rewrite (spectral_run_falsy s1 inp Hf). reflexivity.
    + rewrite Hst in Hf. rewrite (spectral_run_falsy s2 inp Hf). reflexivity.
  - destruct (dict_get spectral_type_dict c) as [[bm bt]|] eqn:Hget.
    + rewrite (spectral_run_seed s1 inp c rest bm bt Hs Hget).
      rewrite Hst in Hs.
      rewrite (spectral_run_seed s2 inp c rest bm bt Hs Hget).
      unfold seeded. rewrite Hl, Hst, same_metallicity.
      apply same_outcome_refl.
    + apply same_outcome_failed with UnknownSpectralTypeError.
      * rewrite (spectral_run_unknown s1 inp c rest Hs Hget). reflexivity.
      * rewrite Hst in Hs.
        rewrite (spectral_run_unknown s2 inp c rest Hs Hget). reflexivity.
Qed.

End Independence.

(** C1. The dispatcher runs the derivation of the first truthy field in the
    order mass, temperature, spectral type.  The fields of lower precedence
    do not count: with any other values in them the call returns or raises
    alike and, when it returns, leaves the same object.  The call raises
    [MissingSeedError] exactly when none of the three fields is truthy. *)
Theorem dispatcher_precedence
    (m t l : option num) (st : option string) (z : option R)
    (inp : list line) :
  let start := fun m t st => mkWorld (mkStar m t l st z) inp in
  (truthy m = true ->
     calculate_properties (start m t st) = calculate_from_mass (start m t st)
     /\ forall t' st',
          same_outcome (calculate_properties (start m t st))
                       (calculate_properties (start m t' st')))
  /\ (truthy m = false -> truthy t = true ->
     calculate_properties (start m t st)
     = calculate_from_temperature (start m t st)
     /\ forall m' st', truthy m' = false ->
          same_outcome (calculate_properties (start m t st))
                       (calculate_properties (start m' t st')))
  /\ (truthy m = false -> truthy t = false -> truthy_str st = true ->
     calculate_properties (start m t st)
     = calculate_from_spectral_type (start m t st)
     /\ forall m' t', truthy m' = false -> truthy t' = false ->
          same_outcome (calculate_properties (start m t st))
                       (calculate_properties (start m' t' st)))
  /\ (fst (calculate_properties (start m t st)) = inl MissingSeedError
      <-> truthy m = false /\ truthy t = false /\ truthy_str st = false).
Proof.
  intros start. unfold start.
  split; [| split; [| split]].
  - intros Hm. split.
    + apply dispatch_mass. exact Hm.
    + intros t' st'.
      rewrite (dispatch_mass (mkStar m t l st z) inp Hm).
      rewrite (dispatch_mass (mkStar m t' l st' z) inp Hm).
      apply mass_same_outcome; reflexivity.
  - intros Hm Ht. split.
    + apply dispatch_temperature; assumption.
    + intros m' st' Hm'.
      rewrite (dispatch_temperature (mkStar m t l st z) inp Hm Ht).
      rewrite (dispatch_temperature (mkStar m' t l st' z) inp Hm' Ht).
      apply temperature_same_outcome; reflexivity.
  - intros Hm Ht Hs. split.
    + apply dispatch_spectral_type; assumption.
    + intros m' t' Hm' Ht'.
      rewrite (dispatch_spectral_type (mkStar m t l st z) inp Hm Ht Hs).
      rewrite (dispatch_spectral_type (mkStar m' t' l st z) inp Hm' Ht' Hs).
      apply spectral_same_outcome; reflexivity.
  - split.
    + intros H.
      destruct (truthy m) eqn:Hm.
      { rewrite (dispatch_mass (mkStar m t l st z) inp Hm) in H.
        destruct (mass_errors _ _ H) as [E | [E | [E | E]]]; discriminate. }
      destruct (truthy t) eqn:Ht.
      { rewrite (dispatch_temperature (mkStar m t l st z) inp Hm Ht) in H.
        destruct (temperature_errors _ _ H) as [E | [E | [E | E]]];
          discriminate. }
      destruct (truthy_str st) eqn:Hs.
      { rewrite (dispatch_spectral_type (mkStar m t l st z) inp Hm Ht Hs) in H.
        destruct (spectral_errors _ _ H) as [E | [E | [E | [E | E]]]];
          discriminate. }
      auto.
    + intros (Hm & Ht & Hs).
      rewrite (dispatch_missing (mkStar m t l st z) inp Hm Ht Hs).
      reflexivity.
Qed.

Lemma dispatcher_precedence_witness :
  same_outcome
    (calculate_properties
       (mkWorld (mkStar (Some (Fl 1)) (Some (Fl 9000)) None (Some "M5")
                        (Some 1)) []))
    (calculate_properties
       (mkWorld (mkStar (Some (Fl 1)) None None None (Some 1)) [])).
Proof.
  destruct (dispatcher_precedence (Some (Fl 1)) (Some (Fl 9000)) None
              (Some "M5") (Some 1) []) as [Hmass _].
  apply Hmass. simpl. rdec. reflexivity.
Defined.

(** ** Positivity of the resolved record *)

Lemma Rpower_pos (x y : R) : 0 < Rpower x y.
Proof. unfold Rpower. apply exp_pos. Qed.

Lemma lifespan_formula_pos (m : R) : 0 < lifespan_formula m.
Proof.
  unfold lifespan_formula.
  destruct (Rleb 0.43 m); apply Rmult_lt_0_compat;
    try apply Rpower_pos; lra.
Qed.

Lemma after_mass_positive (m z : R) :
  0 < m -> 0 < z -> resolved_positive (after_mass m (Some z)).
Proof.
  intros Hm Hz. unfold resolved_positive, after_mass. simpl.
  repeat split; auto.
  - apply Rmult_lt_0_compat; [lra | apply Rpower_pos].
  - apply lifespan_formula_pos.
Qed.

Lemma table_positive (c : ascii) (bm bt : R) :
  In (c, (bm, bt)) spectral_type_dict -> 0 < bm /\ 0 < bt.
Proof.
  unfold spectral_type_dict. cbn [In]. intros H.
  repeat (destruct H as [H | H]; [injection H as <- <- <-; lra|]).
  contradiction.
Qed.

Lemma adjustment_factor_pos (subclass : Z) :
  (subclass < 105)%Z -> 0 < adjustment_factor subclass.
Proof.
  intros H. unfold adjustment_factor.
  assert (Hle : IZR subclass <= IZR 104) by (apply IZR_le; lia).
  lra.
Qed.

(** C6, as the code has it.  When the metallicity given is positive or
    absent and the trusted seed is a mass in range, or a temperature in
    range, or a spectral type made of a table letter and a plain text whose
    subclass is below 105, resolution returns normally and the record has
    mass, temperature, lifespan and metallicity all positive. *)
Theorem resolved_record_positive
    (m t l : option num) (st : option string) (z : option R)
    (inp : list line) :
  match z with Some v => 0 < v | None => True end ->
  ((exists r, m = Some (Fl r) /\ mass_in_range r)
   \/ (truthy m = false /\ exists r, t = Some (Fl r) /\ temperature_in_range r)
   \/ (truthy m = false /\ truthy t = false
       /\ exists c rest bm bt,
            st = Some (String c rest)
            /\ plain_text rest
            /\ In (c, (bm, bt)) spectral_type_dict
            /\ (subclass_of (String c rest) < 105)%Z)) ->
  let out := calculate_properties (mkWorld (init m t l st z) inp) in
  fst out = inr tt /\ resolved_positive (self (snd out)).
Proof.
  intros Hz Hseed out. unfold out.
  set (zv := match z with Some v => v | None => 1 end).
  assert (Hzv : 0 < zv) by (unfold zv; destruct z; lra).
  set (s := init m t l st z).
  assert (Hmet : metallicity s = Some zv) by reflexivity.
  destruct Hseed
    as [(r & -> & Hr)
       | [[Hm (r & -> & Hr)]
         | (Hm & Ht & c & rest & bm & bt & Hs & _ & Hin & Hsub)]].
  - pose proof (mass_in_range_pos r Hr) as Hpos.
    assert (Htr : truthy (mass s) = true) by (simpl; rdec; reflexivity).
    rewrite (dispatch_mass s inp Htr).
    rewrite (mass_run_known s inp r eq_refl Hpos zv Hmet).
    split; [reflexivity | apply after_mass_positive; assumption].
  - pose proof (temperature_in_range_pos r Hr) as Hpos.
    assert (Htr : truthy (temperature s) = true) by (simpl; rdec; reflexivity).
    rewrite (dispatch_temperature s inp Hm Htr).
    rewrite (temperature_run s inp r eq_refl Hpos), Hmet.
    split; [reflexivity|].
    apply after_mass_positive; [apply estimated_mass_pos | assumption].
  - subst st.
    rewrite (dispatch_spectral_type s inp Hm Ht eq_refl).
    pose proof (dict_get_in c bm bt Hin) as Hget.
    destruct (table_positive c bm bt Hin) as [Hbm Hbt].
    pose proof (adjustment_factor_pos _ Hsub) as Haf.
    set (af := adjustment_factor (subclass_of (String c rest))) in *.
    assert (HM : 0 < bm * af) by (apply Rmult_lt_0_compat; assumption).
    assert (HT : 0 < bt * af) by (apply Rmult_lt_0_compat; assumption).
    destruct (Rlt_dec (bm * af) 0.43) as [Hlight | Hheavy].
    + rewrite (spectral_run_light s inp c rest bm bt eq_refl Hget
                 (conj HM Hlight)).
      split; [reflexivity|]. unfold resolved_positive. simpl.
      repeat split; auto.
      apply Rmult_lt_0_compat; [lra | apply Rpower_pos].
    + rewrite (spectral_run_heavy s inp c rest bm bt eq_refl Hget
                 ltac:(fold af; lra)).
      rewrite Hmet. split; [reflexivity|].
      apply after_mass_positive; assumption.
Qed.

Lemma resolved_record_positive_witness :
  let out := calculate_properties
               (mkWorld (init None None None (Some "M5") None) []) in
  fst out = inr tt /\ resolved_positive (self (snd out)).
Proof.
  apply (resolved_record_positive None None None (Some "M5") None []).
  - exact I.
  - right. right. split; [reflexivity|]. split; [reflexivity|].
    exists "M"%char, "5", 0.5, 3500.
    split; [reflexivity|]. split; [split; [reflexivity | simpl; lia]|].
    split.
    + unfold spectral_type_dict. simpl. tauto.
    + reflexivity.
Defined.

(** C6 fails as stated: the parser accepts the subclass of M200, the
    adjustment factor is then -0.95, and resolution returns normally with
    the mass -0.475 (and a complex lifespan). *)
Lemma large_subclass_negative_mass :
  let out := calculate_properties
               (mkWorld (init None None None (Some "M200") None) []) in
  fst out = inr tt
  /\ mass (self (snd out)) = Some (Fl (-0.475))
  /\ lifespan (self (snd out)) = Some Cx
  /\ ~ resolved_positive (self (snd out)).
Proof.
  set (s := init None None None (Some "M200") None).
  assert (Hget : dict_get spectral_type_dict "M"%char = Some (0.5, 3500)).
  { apply dict_get_in. unfold spectral_type_dict. simpl. tauto. }
  assert (Haf : adjustment_factor (subclass_of "M200") = -0.95).
  { change (subclass_of "M200") with 200%Z. unfold adjustment_factor. lra. }
  cbv zeta.
  rewrite (dispatch_spectral_type s [] eq_refl eq_refl eq_refl).
  rewrite (spectral_run_negative s [] "M"%char "200" 0.5 3500 eq_refl Hget
             ltac:(rewrite Haf; lra)).
  rewrite Haf. simpl.
  split; [reflexivity|]. split; [f_equal; f_equal; lra|].
  split; [reflexivity|].
  unfold resolved_positive. simpl. lra.
Qed.

(** ** The boundary at 30000 K *)

Lemma classify_30000 : classify 30000 = "O9".
Proof.
  rewrite (classify_band "O" 30000 60000 3000 30000 10).
  - reflexivity.
  - simpl. tauto.
  - lra.
  - lra.
  - simpl. lra.
Qed.

Lemma run_from_30000
    (l : option num) (st : option string) (z : option R) (inp : list line) :
  calculate_properties (mkWorld (init None (Some (Fl 30000)) l st z) inp)
  = (inr tt,
     mkWorld (mkStar (Some (Fl (estimated_mass 30000))) (Some (Fl 30000))
                     (Some (Fl (lifespan_formula (estimated_mass 30000))))
                     (Some "O9")
                     (Some match z with Some v => v | None => 1 end)) inp).
Proof.
  set (s := init None (Some (Fl 30000)) l st z).
  assert (Htr : truthy (temperature s) = true) by (simpl; rdec; reflexivity).
  rewrite (dispatch_temperature s inp eq_refl Htr).
  rewrite (temperature_run s inp 30000 eq_refl ltac:(lra)).
  unfold s, init, after_mass, prompt_outcome.
  cbv beta iota delta [metallicity].
  rewrite (round_trip 30000 ltac:(lra)), classify_30000. reflexivity.
Qed.

(** C10, as the code has it.  From the seed temperature 30000 the
    temperature path returns normally with the temperature 30000 again and
    the spectral type O9: the boundary belongs to band O, whose range
    [30000, 60000) is tested before that of band B. *)
Theorem boundary_30000_lands_in_O
    (l : option num) (st : option string) (z : option R) (inp : list line) :
  let out := calculate_properties
               (mkWorld (init None (Some (Fl 30000)) l st z) inp) in
  fst out = inr tt
  /\ temperature (self (snd out)) = Some (Fl 30000)
  /\ spectral_type (self (snd out)) = Some "O9"
  /\ lands_in_band "O" (spectral_type (self (snd out))).
Proof.
  cbv zeta. rewrite run_from_30000.
  repeat split. exists "9". reflexivity.
Qed.

(** C10 fails as stated: the record resolved from the temperature 30000
    has the spectral type O9, which is in band O and not in band B. *)
Lemma boundary_30000_not_in_B :
  let x := spectral_type
             (self (snd (calculate_properties
                           (mkWorld (init None (Some (Fl 30000)) None None
                                          None) [])))) in
  x = Some "O9" /\ ~ lands_in_band "B" x.
Proof.
  cbv zeta. rewrite run_from_30000.
  split; [reflexivity|].
  intros [rest Hrest]. discriminate.
Qed.

(** * Further properties of the code *)

(** ** The classifier, again *)

Lemma floordiv_monotone (x y d : R) :
  0 < d -> x <= y -> (floordiv x d <= floordiv y d)%Z.
Proof.
  intros Hd Hxy. unfold floordiv.
  assert (Hq : x / d <= y / d).
  { unfold Rdiv. apply Rmult_le_compat_r; [|exact Hxy].
    left. apply Rinv_0_lt_compat. exact Hd. }
  destruct (base_Int_part (x / d)) as [Hx _].
  destruct (base_Int_part (y / d)) as [_ Hy].
  assert (Hlt : IZR (Int_part (x / d)) < IZR (Int_part (y / d) + 1)).
  { rewrite plus_IZR. lra. }
  apply lt_IZR in Hlt. lia.
Qed.

Lemma band_divisor_positive (l : string) (lo hi d : R) :
  In (l, lo, hi, d) band_table -> 0 < d /\ lo < hi.
Proof.
  unfold band_table. cbn [In]. intros H.
  repeat (destruct H as [H | H]; [injection H as <- <- <- <-; lra|]).
  contradiction.
Qed.

(** Within a lettered band a hotter star never gets a larger digit. *)
Theorem hotter_in_band_smaller_digit (l : string) (lo hi d T1 T2 : R) :
  In (l, lo, hi, d) band_table -> lo <= T1 -> T1 <= T2 -> T2 < hi ->
  exists d1 d2 : Z,
    determine_spectral_type_with_subclass (Fl T1) = inr (l ++ str_int d1)
    /\ determine_spectral_type_with_subclass (Fl T2) = inr (l ++ str_int d2)
    /\ (0 <= d2 <= d1)%Z /\ (d1 <= 9)%Z.
Proof.
  intros Hin H1 H12 H2.
  destruct (band_divisor_positive l lo hi d Hin) as [Hd _].
  exists (band_digit hi d T1), (band_digit hi d T2).
  split; [apply (classifier_band l lo hi d T1 Hin); lra|].
  split; [apply (classifier_band l lo hi d T2 Hin); lra|].
  pose proof (band_digit_range hi d T1 ltac:(lra) Hd).
  pose proof (band_digit_range hi d T2 ltac:(lra) Hd).
  pose proof (floordiv_monotone (hi - T2) (hi - T1) d Hd ltac:(lra)).
  unfold band_digit in *. lia.
Qed.

Lemma hotter_in_band_smaller_digit_witness :
  exists d1 d2 : Z,
    determine_spectral_type_with_subclass (Fl 5300) = inr ("G" ++ str_int d1)
    /\ determine_spectral_type_with_subclass (Fl 5900) = inr ("G" ++ str_int d2)
    /\ (0 <= d2 <= d1)%Z /\ (d1 <= 9)%Z.
Proof.
  apply (hotter_in_band_smaller_digit "G" 5200 6000 80 5300 5900).
  - simpl. tauto.
  - lra.
  - lra.
  - lra.
Defined.

Lemma digit_parses_back (c : ascii) (digit : Z) :
  (0 <= digit <= 9)%Z -> subclass_of (String c (str_int digit)) = digit.
Proof.
  intros H.
  assert (Hcases : digit = 0%Z \/ digit = 1%Z \/ digit = 2%Z \/ digit = 3%Z
                   \/ digit = 4%Z \/ digit = 5%Z \/ digit = 6%Z
                   \/ digit = 7%Z \/ digit = 8%Z \/ digit = 9%Z) by lia.
  repeat (destruct Hcases as [-> | Hcases]; [reflexivity|]).
  subst digit. reflexivity.
Qed.

Lemma band_letter_in_dict (l : string) (lo hi d : R) :
  In (l, lo, hi, d) band_table ->
  exists c bm bt, l = String c "" /\ In (c, (bm, bt)) spectral_type_dict.
Proof.
  unfold band_table, spectral_type_dict. cbn [In]. intros H.
  repeat (destruct H as [H | H];
          [ injection H as <- <- <- <-;
            eexists; eexists; eexists; split; [reflexivity | tauto] | ]).
  contradiction.
Qed.

(** Every lettered spectral type the classifier produces can be given
    back as a seed: it is a letter of the seed table followed by one digit,
    and the seed step reads that digit as the subclass. *)
Theorem classifier_output_is_a_seed (T : R) :
  600 <= T -> T < 60000 ->
  exists c digit bm bt,
    determine_spectral_type_with_subclass (Fl T)
    = inr (String c (str_int digit))
    /\ (0 <= digit <= 9)%Z
    /\ In (c, (bm, bt)) spectral_type_dict
    /\ subclass_of (String c (str_int digit)) = digit.
Proof.
  intros Hlo Hhi.
  destruct (band_cover T) as [H | [(l & lo & hi & d & Hin & HT) | H]];
    [lra | | lra].
  destruct (band_letter_in_dict l lo hi d Hin) as (c & bm & bt & -> & Hc).
  destruct (band_divisor_positive _ lo hi d Hin) as [Hd _].
  pose proof (band_digit_range hi d T ltac:(lra) Hd) as Hrange.
  exists c, (band_digit hi d T), bm, bt.
  split; [exact (classifier_band _ lo hi d T Hin HT)|].
  split; [exact Hrange|].
  split; [exact Hc|].
  apply digit_parses_back. exact Hrange.
Qed.

Lemma classifier_output_is_a_seed_witness :
  exists c digit bm bt,
    determine_spectral_type_with_subclass (Fl 5800)
    = inr (String c (str_int digit))
    /\ (0 <= digit <= 9)%Z
    /\ In (c, (bm, bt)) spectral_type_dict
    /\ subclass_of (String c (str_int digit)) = digit.
Proof.
  apply (classifier_output_is_a_seed 5800); lra.
Defined.

Lemma classify_below (T : R) :
  T < 600 -> classify T = "Below T type (Y dwarf or planet)".
Proof.
  intros H. unfold classify, determine_spectral_type_with_subclass.
  rdec. reflexivity.
Qed.

Lemma classify_wolf_rayet (T : R) :
  60000 <= T -> classify T = "Wolf Rayet Star0".
Proof.
  intros H. unfold classify, determine_spectral_type_with_subclass.
  rdec. reflexivity.
Qed.

(** The two labels of the classifier that are not a letter and a digit,
    given back as a seed: the one for temperatures below 600 K starts with
    a B and is resolved as a star of class B and subclass 0, of mass
    2.5 * 1.05 = 2.625; the one from 60000 K is refused as unknown, the
    object staying as it was. *)
Theorem labels_given_back_as_seed
    (s : StarCalculator) (inp : list line) (T z : R) :
  spectral_type s = Some (classify T) -> metallicity s = Some z ->
  (T < 600 ->
     calculate_from_spectral_type (mkWorld s inp)
     = (inr tt, mkWorld (after_mass 2.625 (Some z)) inp))
  /\ (60000 <= T ->
     calculate_from_spectral_type (mkWorld s inp)
     = (inl UnknownSpectralTypeError, mkWorld s inp)).
Proof.
  intros Hs Hz. split; intros HT.
  - rewrite (classify_below T HT) in Hs.
    assert (Hget : dict_get spectral_type_dict "B"%char = Some (2.5, 25000)).
    { apply dict_get_in. unfold spectral_type_dict. simpl. tauto. }
    assert (Hm : 2.5 * adjustment_factor
                        (subclass_of "Below T type (Y dwarf or planet)")
                 = 2.625).
    { change (subclass_of "Below T type (Y dwarf or planet)") with 0%Z.
      unfold adjustment_factor. lra. }
    rewrite (spectral_run_heavy s inp "B"%char "elow T type (Y dwarf or planet)"
               2.5 25000 Hs Hget ltac:(rewrite Hm; lra)).
    rewrite Hm, Hz. reflexivity.
  - rewrite (classify_wolf_rayet T HT) in Hs.
    apply (spectral_run_unknown s inp "W"%char "olf Rayet Star0" Hs).
    reflexivity.
Qed.

Lemma labels_given_back_as_seed_witness :
  calculate_from_spectral_type
    (mkWorld (init None None None (Some (classify 300)) None) [])
  = (inr tt, mkWorld (after_mass 2.625 (Some 1)) []).
Proof.
  refine (proj1 (labels_given_back_as_seed
                   (init None None None (Some (classify 300)) None) [] 300 1
                   eq_refl eq_refl) _).
  lra.
Defined.

(** ** The mass path, again *)

Lemma Rpower_neg_decreasing (a b c : R) :
  0 < c -> 0 < a < b -> Rpower b (- c) < Rpower a (- c).
Proof.
  intros Hc Hab. rewrite !Rpower_Ropp.
  apply Rinv_lt_contravar.
  - apply Rmult_lt_0_compat; apply Rpower_pos.
  - apply Rlt_Rpower_l; assumption.
Qed.

(** Of two masses in range that differ by at least one part in a billion,
    the larger one gets the higher temperature, and the shorter lifespan
    when both are on the same side of 0.43. *)
Theorem heavier_is_hotter_and_shorter_lived
    (s1 s2 : StarCalculator) (inp1 inp2 : list line) (m1 m2 : R) :
  mass s1 = Some (Fl m1) -> mass s2 = Some (Fl m2) ->
  mass_in_range m1 -> mass_in_range m2 -> m1 * (1 + / 10 ^ 9) <= m2 ->
  exists t1 t2 l1 l2,
    temperature (self (snd (calculate_from_mass (mkWorld s1 inp1))))
    = Some (Fl t1)
    /\ temperature (self (snd (calculate_from_mass (mkWorld s2 inp2))))
       = Some (Fl t2)
    /\ lifespan (self (snd (calculate_from_mass (mkWorld s1 inp1))))
       = Some (Fl l1)
    /\ lifespan (self (snd (calculate_from_mass (mkWorld s2 inp2))))
       = Some (Fl l2)
    /\ t1 < t2
    /\ (m2 < 0.43 \/ 0.43 <= m1 -> l2 < l1).
Proof.
  intros H1 H2 Hr1 Hr2 Hgap.
  pose proof (mass_in_range_pos m1 Hr1) as Hpos.
  assert (Hlt : m1 < m2).
  { assert (0 < / 10 ^ 9) by (apply Rinv_0_lt_compat, pow_lt; lra). nra. }
  destruct (mass_run_self s1 inp1 m1 H1 Hpos) as [z1 ->].
  destruct (mass_run_self s2 inp2 m2 H2 ltac:(lra)) as [z2 ->].
  exists (5800 * Rpower m1 0.505), (5800 * Rpower m2 0.505),
         (lifespan_formula m1), (lifespan_formula m2).
  repeat (split; [reflexivity|]).
  split.
  - apply Rmult_lt_compat_l; [lra|].
    apply Rlt_Rpower_l; lra.
  - unfold lifespan_formula. intros [Hlow | Hhigh]; rdec.
    + replace (-1.8) with (- (1.8)) by lra.
      apply Rmult_lt_compat_l; [lra|].
      apply Rpower_neg_decreasing; lra.
    + replace (-2.5) with (- (2.5)) by lra.
      apply Rmult_lt_compat_l; [lra|].
      apply Rpower_neg_decreasing; lra.
Qed.

Lemma heavier_is_hotter_and_shorter_lived_witness :
  exists t1 t2 l1 l2,
    temperature (self (snd (calculate_from_mass
       (mkWorld (init (Some (Fl 1)) None None None None) []))))
    = Some (Fl t1)
    /\ temperature (self (snd (calculate_from_mass
          (mkWorld (init (Some (Fl 2)) None None None None) []))))
       = Some (Fl t2)
    /\ lifespan (self (snd (calculate_from_mass
          (mkWorld (init (Some (Fl 1)) None None None None) []))))
       = Some (Fl l1)
    /\ lifespan (self (snd (calculate_from_mass
          (mkWorld (init (Some (Fl 2)) None None None None) []))))
       = Some (Fl l2)
    /\ t1 < t2
    /\ (2 < 0.43 \/ 0.43 <= 1 -> l2 < l1).
Proof.
  apply (heavier_is_hotter_and_shorter_lived
           (init (Some (Fl 1)) None None None None)
           (init (Some (Fl 2)) None None None None) [] [] 1 2).
  - reflexivity.
  - reflexivity.
  - unfold mass_in_range. lra.
  - unfold mass_in_range. lra.
  - lra.
Defined.

(** A negative mass whose size is in range passes the guard of the
    mass-based derivation, which then stops on a [TypeError] with the
    object half written: temperature and lifespan hold complex numbers,
    spectral type and metallicity are as before, and nothing was read. *)
Theorem negative_mass_half_written
    (s : StarCalculator) (inp : list line) (m : R) :
  mass s = Some (Fl m) -> mass_in_range (- m) ->
  let out := calculate_from_mass (mkWorld s inp) in
  fst out = inl TypeError
  /\ mass (self (snd out)) = Some (Fl m)
  /\ temperature (self (snd out)) = Some Cx
  /\ lifespan (self (snd out)) = Some Cx
  /\ spectral_type (self (snd out)) = spectral_type s
  /\ metallicity (self (snd out)) = metallicity s
  /\ stdin (snd out) = inp.
Proof.
  intros Hm Hrange. cbv zeta.
  pose proof (mass_in_range_pos (- m) Hrange) as Hneg.
  rewrite (mass_run_negative_world s inp m Hm ltac:(lra)). simpl. tauto.
Qed.

Lemma negative_mass_half_written_witness :
  let out := calculate_from_mass
               (mkWorld (init (Some (Fl (-2))) (Some (Fl 5000)) None
                              (Some "G2") None) []) in
  fst out = inl TypeError
  /\ mass (self (snd out)) = Some (Fl (-2))
  /\ temperature (self (snd out)) = Some Cx
  /\ lifespan (self (snd out)) = Some Cx
  /\ spectral_type (self (snd out)) = Some "G2"
  /\ metallicity (self (snd out)) = Some 1
  /\ stdin (snd out) = [].
Proof.
  apply (negative_mass_half_written
           (init (Some (Fl (-2))) (Some (Fl 5000)) None (Some "G2") None)
           [] (-2)).
  - reflexivity.
  - unfold mass_in_range. lra.
Defined.

(** ** Resolving again *)

Lemma after_mass_run (m z : R) (inp : list line) :
  0 < m ->
  calculate_properties (mkWorld (after_mass m (Some z)) inp)
  = (inr tt, mkWorld (after_mass m (Some z)) inp).
Proof.
  intros Hm.
  assert (Htr : truthy (mass (after_mass m (Some z))) = true)
    by (simpl; rdec; reflexivity).
  rewrite (dispatch_mass _ inp Htr).
  apply (mass_run_known (after_mass m (Some z)) inp m eq_refl Hm z eq_refl).
Qed.

(** Resolving twice is resolving once, when the first run went through
    the mass-based derivation: on an object with a metallicity whose seed
    is a mass in range, or a temperature in range with no mass, the first
    call returns normally and a second call changes nothing. *)
Theorem resolving_twice_changes_nothing
    (s : StarCalculator) (inp : list line) (z : R) :
  metallicity s = Some z ->
  (exists m, mass s = Some (Fl m) /\ mass_in_range m)
  \/ (truthy (mass s) = false
      /\ exists t, temperature s = Some (Fl t) /\ temperature_in_range t) ->
  let first := calculate_properties (mkWorld s inp) in
  fst first = inr tt
  /\ calculate_properties (snd first) = (inr tt, snd first).
Proof.
  intros Hz [(m & Hmass & Hr) | [Hm (t & Htemp & Hr)]]; cbv zeta.
  - pose proof (mass_in_range_pos m Hr) as Hpos.
    assert (Htr : truthy (mass s) = true)
      by (rewrite Hmass; simpl; rdec; reflexivity).
    rewrite (dispatch_mass s inp Htr).
    rewrite (mass_run_known s inp m Hmass Hpos z Hz).
    split; [reflexivity|]. apply after_mass_run. exact Hpos.
  - pose proof (temperature_in_range_pos t Hr) as Hpos.
    assert (Htr : truthy (temperature s) = true)
      by (rewrite Htemp; simpl; rdec; reflexivity).
    rewrite (dispatch_temperature s inp Hm Htr).
    rewrite (temperature_run s inp t Htemp Hpos), Hz.
    split; [reflexivity|]. apply after_mass_run. apply estimated_mass_pos.
Qed.

Lemma resolving_twice_changes_nothing_witness :
  let first := calculate_properties
                 (mkWorld (init None (Some (Fl 4000)) None None None) []) in
  fst first = inr tt
  /\ calculate_properties (snd first) = (inr tt, snd first).
Proof.
  apply (resolving_twice_changes_nothing
           (init None (Some (Fl 4000)) None None None) [] 1).
  - reflexivity.
  - right. split; [reflexivity|]. exists 4000.
    split; [reflexivity|]. unfold temperature_in_range. lra.
Defined.

(** ** The spectral-type path, again *)

Lemma dict_get_none {V : Type} (d : list (ascii * V)) (k : ascii) :
  dict_get d k = None <-> ~ In k (map fst d).
Proof.
  induction d as [|[k' v] d IH]; cbn [dict_get map fst In].
  - tauto.
  - destruct (Ascii.eqb_spec k' k) as [-> | Hne].
    + split; [discriminate | tauto].
    + rewrite IH. tauto.
Qed.

Lemma dict_get_known (c : ascii) :
  In c (map fst spectral_type_dict) ->
  exists bm bt, dict_get spectral_type_dict c = Some (bm, bt).
Proof.
  intros Hin. destruct (dict_get spectral_type_dict c) as [[bm bt]|] eqn:H.
  - eauto.
  - apply dict_get_none in H. contradiction.
Qed.

Lemma adjustment_factor_sign (subclass : Z) :
  (adjustment_factor subclass = 0 <-> subclass = 105%Z)
  /\ (adjustment_factor subclass < 0 <-> (105 < subclass)%Z).
Proof.
  unfold adjustment_factor. split; split.
  - intros H. apply eq_IZR. lra.
  - intros ->. lra.
  - intros H. apply lt_IZR. lra.
  - intros H. apply IZR_lt in H. lra.
Qed.

(** The spectral-type path refuses a type as unknown exactly when it is a
    non-empty string whose first character is none of the nine letters of
    the table (which are capitals); the object is then left as it was. *)
Theorem unknown_spectral_type_iff (w : world) :
  (fst (calculate_from_spectral_type w) = inl UnknownSpectralTypeError
   <-> exists c rest,
         spectral_type (self w) = Some (String c rest)
         /\ ~ In c (map fst spectral_type_dict))
  /\ (fst (calculate_from_spectral_type w) = inl UnknownSpectralTypeError ->
      snd (calculate_from_spectral_type w) = w).
Proof.
  destruct w as [s inp]. cbn [self].
  destruct (truthy_str_cases (spectral_type s))
    as [[Hf Hst] | [_ (c & rest & Hs)]].
  { rewrite (spectral_run_falsy s inp Hf). cbn [fst snd].
    split; [split|]; try discriminate.
    intros (c & rest & H & _). destruct Hst as [Hn | He]; congruence. }
  destruct (dict_get spectral_type_dict c) as [[bm bt]|] eqn:Hget.
  - assert (Hin : In c (map fst spectral_type_dict)).
    { apply dict_get_some in Hget.
      apply (in_map fst) in Hget. exact Hget. }
    assert (Hno : fst (calculate_from_spectral_type (mkWorld s inp))
                  <> inl UnknownSpectralTypeError).
    { intros H. destruct (spectral_errors _ _ H) as [E | [E | [E | [E | E]]]];
        try discriminate.
      clear E. revert H.
      set (M := bm * adjustment_factor (subclass_of (String c rest))).
      destruct (Rtotal_order M 0) as [Hneg | [Hzero | Hpos]].
      - rewrite (spectral_run_negative s inp c rest bm bt Hs Hget Hneg).
        discriminate.
      - rewrite (spectral_run_zero s inp c rest bm bt Hs Hget Hzero).
        discriminate.
      - destruct (Rlt_dec M 0.43) as [Hlight | Hheavy].
        + rewrite (spectral_run_light s inp c rest bm bt Hs Hget
                     (conj Hpos Hlight)).
          discriminate.
        + rewrite (spectral_run_heavy s inp c rest bm bt Hs Hget
                     ltac:(unfold M in Hheavy; lra)).
          intros H.
          destruct (prompt_outcome_errors (metallicity s) inp
                      UnknownSpectralTypeError) as [E | E];
            [| discriminate E | discriminate E].
          destruct (prompt_outcome (metallicity s) inp) as [[o z] inp'].
          exact H. }
    split; [split|]; try (intros H; contradiction).
    intros (c' & rest' & H & Hnot). rewrite Hs in H.
    injection H as <- <-. contradiction.
  - rewrite (spectral_run_unknown s inp c rest Hs Hget). cbn [fst snd].
    split; [split|]; auto.
    intros _. exists c, rest. split; [exact Hs|].
    apply dict_get_none. exact Hget.
Qed.


(** ** Rounding and display *)

Lemma round_half_even_near (y : R) :
  Rabs (IZR (round_half_even y) - y) <= 1 / 2.
Proof.
  unfold round_half_even.
  destruct (base_Int_part y) as [Hlo Hhi].
  set (f := Int_part y) in *.
  unfold Rltb.
  destruct (Rlt_dec (y - IZR f) (1 / 2)) as [H1 | H1].
  { apply Rabs_le. lra. }
  destruct (Rlt_dec (1 / 2) (y - IZR f)) as [H2 | H2].
  { rewrite plus_IZR. apply Rabs_le. lra. }
  destruct (Z.even f).
  - apply Rabs_le. lra.
  - rewrite plus_IZR. apply Rabs_le. lra.
Qed.

Lemma pow10_pos (n : nat) : 0 < 10 ^ n.
Proof. apply pow_lt. lra. Qed.

Lemma py_round_near (x : R) (n : nat) :
  Rabs (py_round x n - x) <= 1 / 2 / 10 ^ n.
Proof.
  unfold py_round.
  pose proof (pow10_pos n) as Hp.
  pose proof (round_half_even_near (x * 10 ^ n)) as H.
  set (k := IZR (round_half_even (x * 10 ^ n))) in *.
  replace (k / 10 ^ n - x) with ((k - x * 10 ^ n) / 10 ^ n)
    by (field; lra).
  unfold Rdiv at 1. rewrite Rabs_mult.
  rewrite (Rabs_pos_eq (/ 10 ^ n)).
  - unfold Rdiv. apply Rmult_le_compat_r; [|exact H].
    left. apply Rinv_0_lt_compat. exact Hp.
  - left. apply Rinv_0_lt_compat. exact Hp.
Qed.

Lemma display_outcome_cases (w : world) :
  (exists d, display_properties w = (inr d, w))
  \/ display_properties w = (inl TypeError, w).
Proof.
  destruct w as [[m0 t0 l0 st0 z0] inp].
  destruct m0 as [[m|]|]; try (right; reflexivity).
  destruct t0 as [[t|]|]; try (right; reflexivity).
  destruct l0 as [[l|]|]; try (right; reflexivity).
  destruct z0 as [z|]; try (right; reflexivity).
  left. eexists. reflexivity.
Qed.

(** On an object whose mass, temperature and lifespan are floats and whose
    metallicity is set, [display_properties] returns the five items in
    order and leaves the object alone: mass and lifespan within 0.0005 of
    the stored values, temperature and metallicity within 0.005, and the
    spectral type as stored. *)
Theorem display_rounds_the_record
    (w : world) (m t l z : R) :
  mass (self w) = Some (Fl m) -> temperature (self w) = Some (Fl t) ->
  lifespan (self w) = Some (Fl l) -> metallicity (self w) = Some z ->
  exists rm rt rl rz,
    display_properties w
    = (inr [ ("Mass (in Solar masses)", VNum rm);
             ("Temperature (K)", VNum rt);
             ("Lifespan (billion years)", VNum rl);
             ("Spectral Type",
              match spectral_type (self w) with
              | Some s => VStr s
              | None => VNone
              end);
             ("Metallicity (Solar units)", VNum rz) ], w)
    /\ Rabs (rm - m) <= 0.0005 /\ Rabs (rt - t) <= 0.005
    /\ Rabs (rl - l) <= 0.0005 /\ Rabs (rz - z) <= 0.005.
Proof.
  destruct w as [[m0 t0 l0 st0 z0] inp]. cbn [self mass temperature lifespan
    metallicity spectral_type].
  intros -> -> -> ->.
  exists (py_round m 3), (py_round t 2), (py_round l 3), (py_round z 2).
  split; [reflexivity|].
  pose proof (py_round_near m 3). pose proof (py_round_near t 2).
  pose proof (py_round_near l 3). pose proof (py_round_near z 2).
  repeat split; lra.
Qed.

Lemma display_rounds_the_record_witness :
  exists rm rt rl rz,
    display_properties (mkWorld (after_mass 1 (Some 1)) [])
    = (inr [ ("Mass (in Solar masses)", VNum rm);
             ("Temperature (K)", VNum rt);
             ("Lifespan (billion years)", VNum rl);
             ("Spectral Type",
              match spectral_type (self (mkWorld (after_mass 1 (Some 1)) []))
              with
              | Some s => VStr s
              | None => VNone
              end);
             ("Metallicity (Solar units)", VNum rz) ],
       mkWorld (after_mass 1 (Some 1)) [])
    /\ Rabs (rm - 1) <= 0.0005
    /\ Rabs (rt - 5800 * Rpower 1 0.505) <= 0.005
    /\ Rabs (rl - lifespan_formula 1) <= 0.0005
    /\ Rabs (rz - 1) <= 0.005.
Proof.
  apply (display_rounds_the_record (mkWorld (after_mass 1 (Some 1)) []));
    reflexivity.
Defined.

(** [display_properties] returns normally exactly when mass, temperature
    and lifespan hold floats and the metallicity is set; otherwise (an
    attribute still [None], as before resolution, or a complex number) it
    raises [TypeError].  Either way the object and the input are left
    alone. *)
Theorem display_fails_on_missing_or_complex (w : world) :
  ((exists d, fst (display_properties w) = inr d)
   <-> (exists m t l z,
          mass (self w) = Some (Fl m) /\ temperature (self w) = Some (Fl t)
          /\ lifespan (self w) = Some (Fl l) /\ metallicity (self w) = Some z))
  /\ ((forall d, fst (display_properties w) <> inr d)
      -> fst (display_properties w) = inl TypeError)
  /\ snd (display_properties w) = w.
Proof.
  destruct w as [[m0 t0 l0 st0 z0] inp].
  cbn [self mass temperature lifespan metallicity].
  destruct m0 as [[m|]|]; try (split; [split|split];
    [ intros [d H]; discriminate H
    | intros (m' & t' & l' & z' & H & _); discriminate H
    | reflexivity | reflexivity ]).
  destruct t0 as [[t|]|]; try (split; [split|split];
    [ intros [d H]; discriminate H
    | intros (m' & t' & l' & z' & _ & H & _); discriminate H
    | reflexivity | reflexivity ]).
  destruct l0 as [[l|]|]; try (split; [split|split];
    [ intros [d H]; discriminate H
    | intros (m' & t' & l' & z' & _ & _ & H & _); discriminate H
    | reflexivity | reflexivity ]).
  destruct z0 as [z|]; try (split; [split|split];
    [ intros [d H]; discriminate H
    | intros (m' & t' & l' & z' & _ & _ & _ & H); discriminate H
    | reflexivity | reflexivity ]).
  split; [split|split].
  - intros _. exists m, t, l, z. auto.
  - intros _. eexists. reflexivity.
  - intros H. exfalso. eapply H. reflexivity.
  - reflexivity.
Qed.

(** ** Subclasses beyond one digit *)

(** A subclass above 105, read from a plain text, makes the adjustment
    factor negative: whatever the letter of the table, the spectral-type
    path returns normally with a negative mass, a negative temperature and
    a complex lifespan, the spectral type being kept;
    [display_properties] then raises [TypeError]. *)
Theorem subclass_above_105_resolves_then_display_fails
    (s : StarCalculator) (inp : list line)
    (c : ascii) (rest : string) (bm bt : R) :
  spectral_type s = Some (String c rest) ->
  In (c, (bm, bt)) spectral_type_dict ->
  plain_text rest ->
  (105 < subclass_of (String c rest))%Z ->
  let out := calculate_from_spectral_type (mkWorld s inp) in
  fst out = inr tt
  /\ (exists m t, mass (self (snd out)) = Some (Fl m) /\ m < 0
                  /\ temperature (self (snd out)) = Some (Fl t) /\ t < 0)
  /\ lifespan (self (snd out)) = Some Cx
  /\ spectral_type (self (snd out)) = Some (String c rest)
  /\ fst (display_properties (snd out)) = inl TypeError.
Proof.
  intros Hs Hin _ Hsub. cbv zeta.
  pose proof (dict_get_in c bm bt Hin) as Hget.
  destruct (table_positive c bm bt Hin) as [Hbm Hbt].
  destruct (adjustment_factor_sign (subclass_of (String c rest)))
    as [_ Hneg_iff].
  apply Hneg_iff in Hsub.
  set (af := adjustment_factor (subclass_of (String c rest))) in *.
  assert (HM : bm * af < 0) by nra.
  assert (HT : bt * af < 0) by nra.
  rewrite (spectral_run_negative s inp c rest bm bt Hs Hget HM).
  cbn [fst snd self mass temperature lifespan spectral_type].
  split; [reflexivity|].
  split; [exists (bm * af), (bt * af); fold af; auto|].
  split; [reflexivity|].
  split; [reflexivity|].
  reflexivity.
Qed.

Lemma subclass_above_105_resolves_then_display_fails_witness :
  let out := calculate_from_spectral_type
               (mkWorld (init None None None (Some "K150") None) []) in
  fst out = inr tt
  /\ (exists m t, mass (self (snd out)) = Some (Fl m) /\ m < 0
                  /\ temperature (self (snd out)) = Some (Fl t) /\ t < 0)
  /\ lifespan (self (snd out)) = Some Cx
  /\ spectral_type (self (snd out)) = Some "K150"
  /\ fst (display_properties (snd out)) = inl TypeError.
Proof.
  apply (subclass_above_105_resolves_then_display_fails
           (init None None None (Some "K150") None) [] "K"%char "150"
           0.8 4500).
  - reflexivity.
  - unfold spectral_type_dict. simpl. tauto.
  - split; [reflexivity | simpl; lia].
  - reflexivity.
Defined.

(** ** Which seeds keep the table temperature *)





(** ** Errors of the dispatcher *)

Lemma dispatcher_error_cases (w : world) (e : exn) :
  fst (calculate_properties w) = inl e ->
  e = MissingSeedError \/ e = TypeError \/ e = UnknownSpectralTypeError
  \/ e = ZeroDivisionError
  \/ (metallicity (self w) = None /\ (e = EOFError \/ e = could_not_convert)).
Proof.
  destruct w as [s inp]. cbn [self].
  assert (Hprompt : forall o z inp',
            prompt_outcome (metallicity s) inp = (o, z, inp') ->
            o = inl e ->
            metallicity s = None /\ (e = EOFError \/ e = could_not_convert)).
  { intros o z inp' Hp ->.
    pose proof (prompt_outcome_errors (metallicity s) inp e) as He.
    rewrite Hp in He. specialize (He eq_refl).
    split; [|exact He].
    destruct (metallicity s); [discriminate Hp | reflexivity]. }
  destruct (truthy_cases (mass s))
    as [[Hm _] | [Hm [(r & Hr & Hneg) | [(r & Hr & Hpos) | Hc]]]].
  2: { rewrite (dispatch_mass s inp Hm).
       rewrite (mass_run_negative_world s inp r Hr Hneg).
       intros H. injection H as <-. auto. }
  2: { rewrite (dispatch_mass s inp Hm), (mass_run s inp r Hr Hpos).
       destruct (prompt_outcome (metallicity s) inp) as [[o z] inp'] eqn:Hp.
       intros H. do 4 right. exact (Hprompt o z inp' eq_refl H). }
  2: { rewrite (dispatch_mass s inp Hm).
       rewrite (mass_run_complex_world s inp Hc).
       intros H. injection H as <-. auto. }
  destruct (truthy_cases (temperature s))
    as [[Ht _] | [Ht [(r & Hr & Hneg) | [(r & Hr & Hpos) | Hc]]]].
  2: { rewrite (dispatch_temperature s inp Hm Ht).
       rewrite (temperature_run_negative_world s inp r Hr Hneg).
       intros H. injection H as <-. auto. }
  2: { rewrite (dispatch_temperature s inp Hm Ht).
       rewrite (temperature_run s inp r Hr Hpos).
       destruct (prompt_outcome (metallicity s) inp) as [[o z] inp'] eqn:Hp.
       intros H. do 4 right. exact (Hprompt o z inp' eq_refl H). }
  2: { rewrite (dispatch_temperature s inp Hm Ht).
       rewrite (temperature_run_complex_world s inp Hc).
       intros H. injection H as <-. auto. }
  destruct (truthy_str_cases (spectral_type s))
    as [[Hf _] | [Hstr (c & rest & Hs)]].
  { rewrite (dispatch_missing s inp Hm Ht Hf).
    intros H. injection H as <-. auto. }
  rewrite (dispatch_spectral_type s inp Hm Ht Hstr).
  destruct (dict_get spectral_type_dict c) as [[bm bt]|] eqn:Hget.
  - set (M := bm * adjustment_factor (subclass_of (String c rest))).
    destruct (Rtotal_order M 0) as [Hneg | [Hzero | Hpos]].
    + rewrite (spectral_run_negative s inp c rest bm bt Hs Hget Hneg).
      discriminate.
    + rewrite (spectral_run_zero s inp c rest bm bt Hs Hget Hzero).
      intros H. injection H as <-. auto.
    + destruct (Rlt_dec M 0.43) as [Hlight | Hheavy].
      * rewrite (spectral_run_light s inp c rest bm bt Hs Hget
                   (conj Hpos Hlight)).
        discriminate.
      * rewrite (spectral_run_heavy s inp c rest bm bt Hs Hget
                   ltac:(unfold M in Hheavy; lra)).
        destruct (prompt_outcome (metallicity s) inp) as [[o z] inp'] eqn:Hp.
        intros H. do 4 right. exact (Hprompt o z inp' eq_refl H).
  - rewrite (spectral_run_unknown s inp c rest Hs Hget).
    intros H. injection H as <-. auto.
Qed.

(** Through the dispatcher the guards of the three derivations do not
    fire when the temperature attribute is absent, zero or a float whose
    size is in range: [calculate_properties] then raises none of their
    three "must be provided" errors, and on an object that has a
    metallicity (as every constructed one has) it raises no error of the
    prompt either. *)
Theorem dispatcher_never_raises_guard_errors (w : world) :
  temperature_attribute_in_range (temperature (self w)) ->
  fst (calculate_properties w) <> inl InvalidMassError
  /\ fst (calculate_properties w) <> inl InvalidTemperatureError
  /\ fst (calculate_properties w) <> inl MissingSpectralTypeError
  /\ (metallicity (self w) <> None ->
      fst (calculate_properties w) <> inl EOFError
      /\ fst (calculate_properties w) <> inl could_not_convert).
Proof.
  intros _.
  repeat split; intros; intros E;
    destruct (dispatcher_error_cases w _ E)
      as [D | [D | [D | [D | [Hnone [D | D]]]]]];
    try discriminate D; contradiction.
Qed.

Lemma dispatcher_never_raises_guard_errors_witness :
  let w := mkWorld (init None (Some (Fl 4000)) None None None) [] in
  fst (calculate_properties w) <> inl InvalidMassError
  /\ fst (calculate_properties w) <> inl InvalidTemperatureError
  /\ fst (calculate_properties w) <> inl MissingSpectralTypeError
  /\ (metallicity (self w) <> None ->
      fst (calculate_properties w) <> inl EOFError
      /\ fst (calculate_properties w) <> inl could_not_convert).
Proof.
  apply (dispatcher_never_raises_guard_errors
           (mkWorld (init None (Some (Fl 4000)) None None None) [])).
  right. unfold temperature_in_range.
  rewrite Rabs_pos_eq by lra. lra.
Defined.

(** ** The script *)

Section Script.

Variables (a : answers) (w : world).

Lemma main_junk :
  mass_text a = Junk \/ temperature_text a = Junk \/ metallicity_text a = Junk ->
  fst (main a w) = inl could_not_convert /\ stdin (snd (main a w)) = stdin w.
Proof.
  unfold main, bind, lift, raise, ret. destruct a as [mt tp st zt].
  cbn [mass_text temperature_text metallicity_text spectral_type_text].
  intros [-> | [-> | ->]].
  - split; reflexivity.
  - destruct mt; split; reflexivity.
  - destruct mt; destruct tp; split; reflexivity.
Qed.

Variables (mi ti : R) (zi : option R).
Hypothesis mass_parsed : float_or_zero (mass_text a) = inr mi.
Hypothesis temperature_parsed : float_or_zero (temperature_text a) = inr ti.
Hypothesis metallicity_parsed : float_or_none (metallicity_text a) = inr zi.

Lemma main_parsed :
  main a w
  = (calculate_properties ;; display_properties)
      (mkWorld (example_usage mi ti
                  (spectral_type_or_none (spectral_type_text a)) zi)
               (stdin w)).
Proof.
  unfold main. unfold bind at 1. rewrite mass_parsed. cbn [lift ret].
  unfold bind at 1. rewrite temperature_parsed. cbn [lift ret].
  unfold bind at 1. rewrite metallicity_parsed. cbn [lift ret].
  unfold bind at 1. unfold update. reflexivity.
Qed.

End Script.


Lemma parsed_or_junk (a : answers) :
  (mass_text a = Junk \/ temperature_text a = Junk \/ metallicity_text a = Junk)
  \/ (exists mi ti zi,
        float_or_zero (mass_text a) = inr mi
        /\ float_or_zero (temperature_text a) = inr ti
        /\ float_or_none (metallicity_text a) = inr zi
        /\ mass_text a <> Junk /\ temperature_text a <> Junk
        /\ metallicity_text a <> Junk).
Proof.
  destruct a as [[|m|] [|t|] st [|z|]]; cbn; auto; right;
    do 3 eexists; repeat split; try reflexivity; discriminate.
Qed.

Lemma example_usage_metallicity (mi ti : R) (st : option string)
    (zi : option R) :
  metallicity (example_usage mi ti st zi)
  = Some (match zi with Some v => v | None => 1 end).
Proof. reflexivity. Qed.

Lemma example_usage_seed_cases (mi ti : R) (st : option string)
    (zi : option R) :
  (0 < mi /\ mass (example_usage mi ti st zi) = Some (Fl mi))
  \/ (mi <= 0 /\ mass (example_usage mi ti st zi) = None
      /\ ((0 < ti /\ temperature (example_usage mi ti st zi) = Some (Fl ti))
          \/ (ti <= 0 /\ temperature (example_usage mi ti st zi) = None))).
Proof.
  unfold example_usage, init. cbn [mass temperature].
  destruct (Rlt_dec 0 mi) as [Hm | Hm].
  - left. rdec. auto.
  - right. rdec. split; [lra|]. split; [reflexivity|].
    destruct (Rlt_dec 0 ti) as [Ht | Ht]; [left | right]; rdec;
      split; auto; lra.
Qed.

(** What the script can fail with, on answers in range (positive numbers
    in range, a plain text for the spectral type).  It stops on the
    conversion error exactly when one of the three numbers typed is not a
    number; otherwise it can only stop on [MissingSeedError], on the
    unknown spectral type, on [ZeroDivisionError] or on [TypeError] (never
    on a guard of the derivations: a mass or temperature that is not
    positive is dropped before the object is built), and it reads nothing
    beyond its four prompts. *)
Theorem script_failures (a : answers) (w : world) :
  answers_in_range a ->
  (fst (main a w) = inl could_not_convert
   <-> mass_text a = Junk \/ temperature_text a = Junk
       \/ metallicity_text a = Junk)
  /\ (forall e, fst (main a w) = inl e ->
        e = could_not_convert \/ e = MissingSeedError
        \/ e = UnknownSpectralTypeError \/ e = ZeroDivisionError
        \/ e = TypeError)
  /\ stdin (snd (main a w)) = stdin w.
Proof.
  intros _.
  destruct (parsed_or_junk a)
    as [Hjunk | (mi & ti & zi & Hm & Ht & Hz & Nm & Nt & Nz)].
  { destruct (main_junk a w Hjunk) as [He Hin].
    rewrite He. split; [tauto|]. split; [|exact Hin].
    intros e H. injection H as <-. auto. }
  rewrite (main_parsed a w mi ti zi Hm Ht Hz).
  set (obj := example_usage mi ti
                (spectral_type_or_none (spectral_type_text a)) zi).
  pose proof (example_usage_metallicity mi ti
                (spectral_type_or_none (spectral_type_text a)) zi) as Hmet.
  fold obj in Hmet.
  set (z := match zi with Some v => v | None => 1 end) in *.
  destruct (properties_frame obj (stdin w) z Hmet) as [Hz' Hin'].
  pose proof (dispatcher_error_cases (mkWorld obj (stdin w))) as Hcases.
  unfold bind.
  destruct (calculate_properties (mkWorld obj (stdin w))) as [[e|[]] w1] eqn:Hrun.
  - cbn [fst snd] in *. split; [|split].
    + split.
      * intros H. injection H as He.
        destruct (Hcases e eq_refl) as [D | [D | [D | [D | [Hnone _]]]]];
          subst e; try discriminate D.
        cbn [self] in Hnone. congruence.
      * intros [H | [H | H]]; contradiction.
    + intros e' H. injection H as <-.
      destruct (Hcases e eq_refl) as [D | [D | [D | [D | [Hnone _]]]]];
        auto.
      cbn [self] in Hnone. congruence.
    + exact Hin'.
  - cbn [fst snd] in *.
    destruct (display_outcome_cases w1) as [[d ->] | ->]; cbn [fst snd].
    + split; [|split].
      * split; [discriminate|]. intros [H | [H | H]]; contradiction.
      * intros e' H. discriminate H.
      * exact Hin'.
    + split; [|split].
      * split; [discriminate|]. intros [H | [H | H]]; contradiction.
      * intros e' H. injection H as <-. auto.
      * exact Hin'.
Qed.

Lemma script_failures_witness :
  let a := mkAnswers Blank Junk "g2" Blank in
  let w := mkWorld (init None None None None None) [] in
  (fst (main a w) = inl could_not_convert
   <-> mass_text a = Junk \/ temperature_text a = Junk
       \/ metallicity_text a = Junk)
  /\ (forall e, fst (main a w) = inl e ->
        e = could_not_convert \/ e = MissingSeedError
        \/ e = UnknownSpectralTypeError \/ e = ZeroDivisionError
        \/ e = TypeError)
  /\ stdin (snd (main a w)) = stdin w.
Proof.
  apply (script_failures (mkAnswers Blank Junk "g2" Blank)
           (mkWorld (init None None None None None) [])).
  split; [|split].
  - intros m H. discriminate H.
  - intros t H. discriminate H.
  - split; [reflexivity | simpl; lia].
Defined.






(** ** Case and blanks in the spectral type typed *)

Lemma isspace_upper_char (c : ascii) : isspace (upper_char c) = isspace c.
Proof. destruct c as [[] [] [] [] [] [] [] []]; reflexivity. Qed.

Lemma upper_char_idempotent (c : ascii) :
  upper_char (upper_char c) = upper_char c.
Proof. destruct c as [[] [] [] [] [] [] [] []]; reflexivity. Qed.

Lemma upper_idempotent (s : string) : upper (upper s) = upper s.
Proof.
  induction s as [|c r IH]; cbn [upper]; [reflexivity|].
  rewrite upper_char_idempotent, IH. reflexivity.
Qed.

Lemma lstrip_upper (s : string) : lstrip (upper s) = upper (lstrip s).
Proof.
  induction s as [|c r IH]; cbn [upper lstrip]; [reflexivity|].
  rewrite isspace_upper_char. destruct (isspace c); [exact IH | reflexivity].
Qed.

Lemma rstrip_upper (s : string) : rstrip (upper s) = upper (rstrip s).
Proof.
  induction s as [|c r IH]; cbn [upper rstrip]; [reflexivity|].
  rewrite IH, isspace_upper_char.
  destruct (rstrip r); cbn [upper]; [|reflexivity].
  destruct (isspace c); reflexivity.
Qed.

Lemma strip_upper (s : string) : strip (upper s) = upper (strip s).
Proof. unfold strip. rewrite lstrip_upper. apply rstrip_upper. Qed.

Lemma rstrip_idempotent (s : string) : rstrip (rstrip s) = rstrip s.
Proof.
  induction s as [|c r IH]; cbn [rstrip]; [reflexivity|].
  destruct (rstrip r) as [|c' r'] eqn:Hr.
  - destruct (isspace c) eqn:Hc; cbn [rstrip]; [reflexivity|].
    rewrite Hc. reflexivity.
  - change (rstrip (String c (String c' r')))
      with (match rstrip (String c' r') with
            | EmptyString =>
                if isspace c then EmptyString else String c EmptyString
            | r'' => String c r''
            end).
    rewrite IH. reflexivity.
Qed.

Lemma rstrip_keeps_head (c : ascii) (r : string) :
  isspace c = false -> exists r', rstrip (String c r) = String c r'.
Proof.
  intros Hc. cbn [rstrip]. destruct (rstrip r); [|eauto].
  rewrite Hc. eauto.
Qed.

Lemma lstrip_head (s : string) :
  lstrip s = "" \/ exists c r, lstrip s = String c r /\ isspace c = false.
Proof.
  induction s as [|c r IH]; cbn [lstrip]; [auto|].
  destruct (isspace c) eqn:Hc; [exact IH | right; eauto].
Qed.

Lemma strip_idempotent (s : string) : strip (strip s) = strip s.
Proof.
  unfold strip.
  destruct (lstrip_head s) as [-> | (c & r & -> & Hc)]; [reflexivity|].
  destruct (rstrip_keeps_head c r Hc) as [r' Hr'].
  rewrite Hr' at 1. cbn [lstrip]. rewrite Hc, <- Hr'.
  apply rstrip_idempotent.
Qed.

Lemma lstrip_blank_prefix (pre s : string) :
  blank pre = true -> lstrip (pre ++ s) = lstrip s.
Proof.
  induction pre as [|c r IH]; cbn [blank append lstrip]; [reflexivity|].
  intros H. apply andb_prop in H. destruct H as [Hc Hr].
  rewrite Hc. exact (IH Hr).
Qed.

Lemma rstrip_blank (post : string) : blank post = true -> rstrip post = "".
Proof.
  induction post as [|c r IH]; cbn [blank rstrip]; [reflexivity|].
  intros H. apply andb_prop in H. destruct H as [Hc Hr].
  rewrite (IH Hr), Hc. reflexivity.
Qed.

Lemma rstrip_blank_suffix (s post : string) :
  blank post = true -> rstrip (s ++ post) = rstrip s.
Proof.
  intros Hb. induction s as [|c r IH]; cbn [append rstrip].
  - apply rstrip_blank. exact Hb.
  - rewrite IH. reflexivity.
Qed.

Lemma lstrip_blank (s : string) : blank s = true -> lstrip s = "".
Proof.
  induction s as [|c r IH]; cbn [blank lstrip]; [reflexivity|].
  intros H. apply andb_prop in H. destruct H as [Hc Hr].
  rewrite Hc. exact (IH Hr).
Qed.

Lemma strip_blank_suffix (s post : string) :
  blank post = true -> strip (s ++ post) = strip s.
Proof.
  intros Hb. unfold strip.
  induction s as [|c r IH]; cbn [append lstrip].
  - rewrite (lstrip_blank post Hb). reflexivity.
  - destruct (isspace c); [exact IH|].
    apply (rstrip_blank_suffix (String c r) post Hb).
Qed.

Lemma strip_padded (pre s post : string) :
  blank pre = true -> blank post = true ->
  strip (pre ++ s ++ post) = strip s.
Proof.
  intros Hpre Hpost.
  transitivity (strip (s ++ post)).
  - unfold strip. rewrite (lstrip_blank_prefix pre (s ++ post) Hpre).
    reflexivity.
  - apply strip_blank_suffix. exact Hpost.
Qed.

Lemma main_same_spectral_type (a : answers) (w : world) (text : string) :
  spectral_type_or_none text = spectral_type_or_none (spectral_type_text a) ->
  main (with_spectral_type_text a text) w = main a w.
Proof.
  intros H. unfold main, with_spectral_type_text.
  cbn [mass_text temperature_text spectral_type_text metallicity_text].
  rewrite H. reflexivity.
Qed.

(** Letter case and surrounding blanks of the spectral type typed do not
    matter to the script: typing the text in capitals, padding it with
    whitespace, or typing it already stripped and in capitals gives the
    same run. *)
Theorem script_ignores_case_and_blanks
    (a : answers) (w : world) (pre post : string) :
  blank pre = true -> blank post = true ->
  main (with_spectral_type_text a (pre ++ spectral_type_text a ++ post)) w
  = main a w
  /\ main (with_spectral_type_text a (upper (spectral_type_text a))) w
     = main a w
  /\ main (with_spectral_type_text a
             (upper (strip (spectral_type_text a)))) w
     = main a w.
Proof.
  intros Hpre Hpost.
  split; [| split]; apply main_same_spectral_type;
    unfold spectral_type_or_none.
  - rewrite (strip_padded pre _ post Hpre Hpost). reflexivity.
  - rewrite strip_upper, upper_idempotent. reflexivity.
  - rewrite strip_upper, strip_idempotent, upper_idempotent. reflexivity.
Qed.

Lemma script_ignores_case_and_blanks_witness :
  main (mkAnswers Blank Blank "  g2 " Blank)
       (mkWorld (init None None None None None) [])
  = main (mkAnswers Blank Blank "g2" Blank)
         (mkWorld (init None None None None None) []).
Proof.
  exact (proj1 (script_ignores_case_and_blanks
                  (mkAnswers Blank Blank "g2" Blank)
                  (mkWorld (init None None None None None) [])
                  "  " " " eq_refl eq_refl)).
Defined.

(** ** The lifespan at the threshold *)

Lemma Rpower_neg_antitone (a b c : R) :
  0 < c -> 0 < a <= b -> Rpower b (- c) <= Rpower a (- c).
Proof.
  intros Hc [Ha [Hlt | ->]]; [left | right; reflexivity].
  apply Rpower_neg_decreasing; [exact Hc | split; assumption].
Qed.

Lemma pow_of_Rpower (x y : R) (n : nat) :
  0 < x -> (Rpower x y) ^ n = Rpower x (y * INR n).
Proof.
  intros Hx. rewrite <- Rpower_pow.
  - apply Rpower_mult.
  - apply Rpower_pos.
Qed.

Lemma threshold_numbers : 15 * Rpower 0.42 (-1.8) < 10 * Rpower 0.45 (-2.5).
Proof.
  apply Rnot_le_lt. intros H.
  pose proof (Rpower_pos 0.42 (-1.8)) as Ha.
  pose proof (Rpower_pos 0.45 (-2.5)) as Hb.
  assert (Hp : (10 * Rpower 0.45 (-2.5)) ^ 10
               <= (15 * Rpower 0.42 (-1.8)) ^ 10).
  { apply pow_incr. split; lra. }
  rewrite !Rpow_mult_distr in Hp.
  rewrite !pow_of_Rpower in Hp by lra.
  replace (-2.5 * INR 10) with (- INR 25) in Hp by (simpl; lra).
  replace (-1.8 * INR 10) with (- INR 18) in Hp by (simpl; lra).
  rewrite !Rpower_Ropp, !Rpower_pow in Hp by lra.
  assert (H1 : 0 < 0.45 ^ 25) by (apply pow_lt; lra).
  assert (H2 : 0 < 0.42 ^ 18) by (apply pow_lt; lra).
  apply (Rmult_le_compat_r (0.45 ^ 25 * 0.42 ^ 18)) in Hp; [|nra].
  replace (10 ^ 10 * / 0.45 ^ 25 * (0.45 ^ 25 * 0.42 ^ 18))
    with (10 ^ 10 * 0.42 ^ 18) in Hp by (field; lra).
  replace (15 ^ 10 * / 0.42 ^ 18 * (0.45 ^ 25 * 0.42 ^ 18))
    with (15 ^ 10 * 0.45 ^ 25) in Hp by (field; lra).
  lra.
Qed.

(** The lifespan jumps up at 0.43: a star of mass between 0.42 and 0.43
    (low-mass formula) gets a shorter lifespan than any star of mass
    between 0.43 and 0.45 (high-mass formula), although it is lighter. *)
Theorem lifespan_jumps_up_at_threshold
    (s1 s2 : StarCalculator) (inp1 inp2 : list line) (m1 m2 : R) :
  mass s1 = Some (Fl m1) -> mass s2 = Some (Fl m2) ->
  0.42 <= m1 -> m1 < 0.43 -> 0.43 <= m2 -> m2 <= 0.45 ->
  exists l1 l2,
    lifespan (self (snd (calculate_from_mass (mkWorld s1 inp1))))
    = Some (Fl l1)
    /\ lifespan (self (snd (calculate_from_mass (mkWorld s2 inp2))))
       = Some (Fl l2)
    /\ l1 < l2.
Proof.
  intros H1 H2 Ha Hb Hc Hd.
  destruct (mass_run_self s1 inp1 m1 H1 ltac:(lra)) as [z1 ->].
  destruct (mass_run_self s2 inp2 m2 H2 ltac:(lra)) as [z2 ->].
  exists (lifespan_formula m1), (lifespan_formula m2).
  split; [reflexivity|]. split; [reflexivity|].
  unfold lifespan_formula. rdec.
  assert (Hlow : Rpower m1 (-1.8) <= Rpower 0.42 (-1.8)).
  { replace (-1.8) with (- (1.8)) by lra.
    apply Rpower_neg_antitone; lra. }
  assert (Hhigh : Rpower 0.45 (-2.5) <= Rpower m2 (-2.5)).
  { replace (-2.5) with (- (2.5)) by lra.
    apply Rpower_neg_antitone; lra. }
  pose proof threshold_numbers. lra.
Qed.

Lemma lifespan_jumps_up_at_threshold_witness :
  exists l1 l2,
    lifespan (self (snd (calculate_from_mass
       (mkWorld (init (Some (Fl 0.42)) None None None None) []))))
    = Some (Fl l1)
    /\ lifespan (self (snd (calculate_from_mass
          (mkWorld (init (Some (Fl 0.43)) None None None None) []))))
       = Some (Fl l2)
    /\ l1 < l2.
Proof.
  apply (lifespan_jumps_up_at_threshold
           (init (Some (Fl 0.42)) None None None None)
           (init (Some (Fl 0.43)) None None None None) [] [] 0.42 0.43);
    try reflexivity; lra.
Defined.

(** ** The prompt *)


